(** * Resilience and health-monitoring layer

    A shallow embedding of three Python modules of the bot,

    - [src/utils/graceful_degradation.py]  (circuit breakers, fallbacks),
    - [src/utils/error_handler.py]         (the bounded error collector),
    - [src/utils/health_monitor.py]        (health samples, API metrics),

    followed by the properties proved about them.

    Conventions of the embedding.

    - A Python callable is a function on an external world [W]; it returns
      an [Outcome] (a value or a raised exception) and the next world.
      The wrapped callables do not reach into the breaker that wraps them.
    - [time.time()] is a reading [time_time : W -> Q] of the world: every
      finite double is a rational.  The one subtraction the breaker
      performs on time stamps is taken exact, where the code rounds the
      difference to binary64.  Rounding is monotone and leaves doubles
      alone, so the two agree on the side of [recovery_time] on which the
      difference falls unless the exact difference lies strictly between
      [recovery_time] and the nearest double beyond it.  [passes] is the
      test as this model performs it; [let_through] leaves that gap out,
      and under it the code lets the call through as well.
    - The floating-point fields of the health monitor are IEEE binary64
      values ([PrimFloat.float]), with the operations of the hardware.
    - Python integers that the code starts at [0] and only ever increments
      are [nat]; configuration integers, which the code never validates,
      are [Z].
    - Logging calls have no effect on the state and are left out.
    - Locks are not modelled: every function below is one uninterrupted
      execution of the Python method. *)

From Stdlib Require Import ZArith QArith Qpower String List Lia.
From Stdlib Require Import Floats.
From stdpp Require Import gmap strings list fin_maps.

Local Open Scope Z_scope.

(** ** Exceptions and outcomes *)

(** The exception classes the code distinguishes.  [except Exception]
    catches the first two, [except ServiceUnavailableError] only the first;
    [BaseException] stands for the classes outside [Exception]
    ([KeyboardInterrupt], [SystemExit], ...), which no handler below
    catches. *)
Inductive PyExc : Type :=
| ServiceUnavailableError (msg : string)
| Exception (cls msg : string)
| BaseException (cls msg : string).

Definition isinstance_ServiceUnavailableError (e : PyExc) : bool :=
  match e with ServiceUnavailableError _ => true | _ => false end.

Definition isinstance_Exception (e : PyExc) : bool :=
  match e with BaseException _ _ => false | _ => true end.

Inductive Outcome (R : Type) : Type :=
| Return (r : R)
| Raise (e : PyExc).
Arguments Return {R} r.
Arguments Raise {R} e.

(** ** graceful_degradation.py *)

Module graceful_degradation.

Inductive ServiceStatus : Type := HEALTHY | DEGRADED | FAILED | RECOVERING.

#[global] Instance ServiceStatus_eq_dec : EqDecision ServiceStatus.
Proof. solve_decision. Defined.

Record ServiceConfig : Type := mkServiceConfig {
  name : string;
  max_failures : Z;
  failure_window : Z;
  recovery_time : Z;
  fallback_enabled : bool
}.

(** [ServiceConfig(name=..., max_failures=3, failure_window=300,
    recovery_time=60)], as [mark_service_unavailable] and
    [is_service_available] build it; [fallback_enabled] keeps its default. *)
Definition default_config (service_name : string) : ServiceConfig :=
  mkServiceConfig service_name 3 300 60 true.

Record CircuitBreaker : Type := mkCircuitBreaker {
  config : ServiceConfig;
  failure_count : Z;
  last_failure_time : Q;
  status : ServiceStatus
}.

(** [CircuitBreaker.__init__] *)
Definition CircuitBreaker_init (cfg : ServiceConfig) : CircuitBreaker :=
  mkCircuitBreaker cfg 0 0%Q HEALTHY.

Definition set_status (s : ServiceStatus) (cb : CircuitBreaker) : CircuitBreaker :=
  mkCircuitBreaker (config cb) (failure_count cb) (last_failure_time cb) s.

Definition set_failure_count (n : Z) (cb : CircuitBreaker) : CircuitBreaker :=
  mkCircuitBreaker (config cb) n (last_failure_time cb) (status cb).

Definition set_last_failure_time (t : Q) (cb : CircuitBreaker) : CircuitBreaker :=
  mkCircuitBreaker (config cb) (failure_count cb) t (status cb).

(** [x > y] on time stamps. *)
Definition Qgtb (x y : Q) : bool := negb (Qle_bool x y).

Section Breaker.

(** [A]: the arguments [*args, **kwargs]; [W]: the world the callables act
    on; [R]: what they return. *)
Context {A W R : Type}.
Variable time_time : W -> Q.

Definition Callable : Type := A -> W -> Outcome R * W.

(** The effects of a call in program order: every write to the breaker and
    every invocation of a callable. *)
Inductive Event : Type :=
| SetStatus (s : ServiceStatus)
| SetFailureCount (n : Z)
| SetLastFailureTime (t : Q)
| Invoke (a : A)
| InvokeFallback (a : A).

(** What a call leaves behind: the value returned or the exception
    raised, the breaker (or the manager) and the world afterwards, and the
    effects in order. *)
Record Result (S : Type) : Type := mkResult {
  outcome : Outcome R;
  state : S;
  world : W;
  trace : list Event
}.
Arguments mkResult {S} _ _ _ _.
Arguments outcome {S} _.
Arguments state {S} _.
Arguments world {S} _.
Arguments trace {S} _.

(** Lines 44-51 of [CircuitBreaker.call]: the first locked block.  Either
    the breaker lets the call through (possibly after moving to
    RECOVERING), or it raises [ServiceUnavailableError].

    Line 47 computes [time.time() - self.last_failure_time] in binary64
    and compares the rounded difference with the integer [recovery_time];
    here the difference is the exact one.  With [recovery_time] an integer
    that a double holds (every integer up to [2^53]), an exact difference
    that is at most [recovery_time] rounds to one that is, and an exact
    difference that has reached a double above [recovery_time] rounds to
    one above it.  In between (the exact difference above [recovery_time]
    by less than the spacing of the doubles there) the code still refuses
    where this definition lets the call through. *)
Definition check_recovery (cb : CircuitBreaker) (now : Q)
  : CircuitBreaker * list Event + PyExc :=
  if decide (status cb = FAILED) then
    if Qgtb (now - last_failure_time cb) (inject_Z (recovery_time (config cb))) then
      inl (set_status RECOVERING cb, [SetStatus RECOVERING])
    else
      inr (ServiceUnavailableError
             ("Servicio " ++ name (config cb) ++ " no disponible"))
  else inl (cb, []).

(** Lines 57-61: the success branch. *)
Definition on_success (cb : CircuitBreaker) : CircuitBreaker * list Event :=
  (set_status HEALTHY (set_failure_count 0 cb),
   [SetFailureCount 0; SetStatus HEALTHY]).

(** Lines 66-75: the [except Exception] branch; [now] is the clock read on
    line 68. *)
Definition on_failure (cb : CircuitBreaker) (now : Q) : CircuitBreaker * list Event :=
  let n := failure_count cb + 1 in
  let cb1 := set_last_failure_time now (set_failure_count n cb) in
  let s := if max_failures (config cb1) <=? failure_count cb1 then FAILED else DEGRADED in
  (set_status s cb1, [SetFailureCount n; SetLastFailureTime now; SetStatus s]).

(** [CircuitBreaker.call] *)
Definition call (cb : CircuitBreaker) (func : Callable) (a : A) (w : W)
  : Result CircuitBreaker :=
  match check_recovery cb (time_time w) with
  | inr unavailable => mkResult (Raise unavailable) cb w []
  | inl (cb1, tr1) =>
      let '(r, w') := func a w in
      match r with
      | Return v =>
          let '(cb2, tr2) := on_success cb1 in
          mkResult (Return v) cb2 w' (tr1 ++ Invoke a :: tr2)
      | Raise e =>
          if isinstance_Exception e then
            let '(cb2, tr2) := on_failure cb1 (time_time w') in
            mkResult (Raise e) cb2 w' (tr1 ++ Invoke a :: tr2)
          else
            mkResult (Raise e) cb1 w' (tr1 ++ [Invoke a])
      end
  end.

Record GracefulDegradation : Type := mkGracefulDegradation {
  services : gmap string CircuitBreaker;
  fallback_handlers : gmap string Callable;
  initialized : bool
}.

(** [GracefulDegradation.__init__] *)
Definition GracefulDegradation_init : GracefulDegradation :=
  mkGracefulDegradation ∅ ∅ false.

Definition set_services (m : gmap string CircuitBreaker) (gd : GracefulDegradation)
  : GracefulDegradation :=
  mkGracefulDegradation m (fallback_handlers gd) (initialized gd).

(** [register_service]: [self.services[config.name] = CircuitBreaker(config)] *)
Definition register_service (gd : GracefulDegradation) (cfg : ServiceConfig)
  : GracefulDegradation :=
  set_services (<[name cfg := CircuitBreaker_init cfg]> (services gd)) gd.

(** [register_fallback] *)
Definition register_fallback (gd : GracefulDegradation) (service_name : string)
  (fallback_func : Callable) : GracefulDegradation :=
  mkGracefulDegradation (services gd)
    (<[service_name := fallback_func]> (fallback_handlers gd)) (initialized gd).

(** Lines 116-118 and 128-131: register an unknown name with the default
    configuration. *)
Definition ensure_registered (gd : GracefulDegradation) (service_name : string)
  : GracefulDegradation :=
  match services gd !! service_name with
  | None => register_service gd (default_config service_name)
  | Some _ => gd
  end.

(** [mark_service_unavailable]; [now] is the clock read on line 123.  The
    three writes go to the breaker found under [service_name], which is
    there after [ensure_registered]. *)
Definition mark_service_unavailable (gd : GracefulDegradation)
  (service_name : string) (now : Q) : GracefulDegradation :=
  let gd1 := ensure_registered gd service_name in
  set_services
    (alter (fun cb =>
              set_last_failure_time now
                (set_failure_count (max_failures (config cb))
                   (set_status FAILED cb)))
       service_name (services gd1))
    gd1.

(** [is_service_available]: the answer and the manager, which may have
    gained a breaker.  After [ensure_registered] the lookup on line 133
    finds the breaker; the [None] branch is never taken. *)
Definition is_service_available (gd : GracefulDegradation) (service_name : string)
  : bool * GracefulDegradation :=
  let gd1 := ensure_registered gd service_name in
  match services gd1 !! service_name with
  | Some circuit_breaker =>
      (bool_decide (status circuit_breaker ∈ [HEALTHY; DEGRADED; RECOVERING]), gd1)
  | None => (false, gd1)
  end.

(** [can_operate_in_degraded_mode] *)
Definition can_operate_in_degraded_mode (gd : GracefulDegradation) : bool :=
  if decide (services gd = ∅) then true
  else
    let available_services :=
      foldl (fun (acc : nat) '(service_name, circuit_breaker) =>
               if bool_decide (status circuit_breaker ∈ [HEALTHY; DEGRADED])
                  || bool_decide (is_Some (fallback_handlers gd !! service_name))
               then S acc else acc)
        0%nat (map_to_list (services gd)) in
    bool_decide (0 < available_services)%nat.

(** [call_service].  The breaker object lives in the registry, so what
    [call] did to it is visible there afterwards. *)
Definition call_service (gd : GracefulDegradation) (service_name : string)
  (func : Callable) (a : A) (w : W) : Result GracefulDegradation :=
  match services gd !! service_name with
  | None =>
      let '(r, w') := func a w in mkResult r gd w' [Invoke a]
  | Some circuit_breaker =>
      let res := call circuit_breaker func a w in
      let gd' := set_services (<[service_name := state res]> (services gd)) gd in
      match outcome res with
      | Return v => mkResult (Return v) gd' (world res) (trace res)
      | Raise e =>
          if isinstance_ServiceUnavailableError e then
            match fallback_handlers gd !! service_name with
            | Some fallback =>
                let '(r, w') := fallback a (world res) in
                mkResult r gd' w' (trace res ++ [InvokeFallback a])
            | None => mkResult (Raise e) gd' (world res) (trace res)
            end
          else if isinstance_Exception e then
            match fallback_handlers gd !! service_name with
            | Some fallback =>
                if fallback_enabled (config circuit_breaker) then
                  let '(r, w') := fallback a (world res) in
                  mkResult r gd' w' (trace res ++ [InvokeFallback a])
                else mkResult (Raise e) gd' (world res) (trace res)
            | None => mkResult (Raise e) gd' (world res) (trace res)
            end
          else mkResult (Raise e) gd' (world res) (trace res)
      end
  end.

End Breaker.

Arguments Event : clear implicits.
Arguments Result : clear implicits.
Arguments mkResult {A W R S} _ _ _ _.
Arguments outcome {A W R S} _.
Arguments state {A W R S} _.
Arguments world {A W R S} _.
Arguments trace {A W R S} _.
Arguments GracefulDegradation : clear implicits.
Arguments Callable : clear implicits.

Section Wrappers.

Context {A W R : Type}.
Variable time_time : W -> Q.

(** [ServiceStatus.value] *)
Definition value (s : ServiceStatus) : string :=
  match s with
  | HEALTHY => "healthy"
  | DEGRADED => "degraded"
  | FAILED => "failed"
  | RECOVERING => "recovering"
  end.

(** The two dictionaries that [get_service_status] returns: the one for a
    name that is not registered, and the one for a registered service. *)
Inductive ServiceStatusReport : Type :=
| NotRegistered (report_status report_message : string)
| Registered (report_name report_status : string)
    (report_failure_count report_max_failures : Z)
    (report_last_failure_time : Q) (report_has_fallback : bool).

(** [get_service_status] *)
Definition get_service_status (gd : GracefulDegradation A W R) (service_name : string)
  : ServiceStatusReport :=
  match services gd !! service_name with
  | None => NotRegistered "unknown" "Servicio no registrado"
  | Some circuit_breaker =>
      Registered service_name (value (status circuit_breaker))
        (failure_count circuit_breaker)
        (max_failures (config circuit_breaker))
        (last_failure_time circuit_breaker)
        (bool_decide (is_Some (fallback_handlers gd !! service_name)))
  end.

(** [get_all_services_status]: one entry for each key of [self.services]. *)
Definition get_all_services_status (gd : GracefulDegradation A W R)
  : gmap string ServiceStatusReport :=
  map_imap (fun service_name _ => Some (get_service_status gd service_name))
    (services gd).

(** The function [wrapper] that [with_graceful_degradation(service_name,
    fallback_func)] builds around [func], run against the global manager.
    [fallback_func] is optional; its invocation is logged as a fallback
    invocation. *)
Definition with_graceful_degradation (service_name : string)
  (fallback_func : option (Callable A W R)) (func : Callable A W R)
  (gd : GracefulDegradation A W R) (a : A) (w : W)
  : Result A W R (GracefulDegradation A W R) :=
  let res := call_service time_time gd service_name func a w in
  match outcome res with
  | Return _ => res
  | Raise e =>
      if isinstance_Exception e then
        match fallback_func with
        | Some inline =>
            let '(r, w') := inline a (world res) in
            mkResult r (state res) w' (trace res ++ [InvokeFallback a])
        | None => res
        end
      else res
  end.

(** The predefined fallbacks take any arguments and return a literal; the
    four literals are parameters here. *)
Variables anthropic_literal slack_literal code_analysis_literal
  code_generation_literal : R.

Definition anthropic_fallback : Callable A W R :=
  fun _ w => (Return anthropic_literal, w).
Definition slack_fallback : Callable A W R :=
  fun _ w => (Return slack_literal, w).
Definition code_analysis_fallback : Callable A W R :=
  fun _ w => (Return code_analysis_literal, w).
Definition code_generation_fallback : Callable A W R :=
  fun _ w => (Return code_generation_literal, w).

(** [setup_default_services], on the global manager. *)
Definition setup_default_services (gd : GracefulDegradation A W R)
  : GracefulDegradation A W R :=
  let gd1 := register_service gd (mkServiceConfig "anthropic" 3 300 60 true) in
  let gd2 := register_fallback gd1 "anthropic" anthropic_fallback in
  let gd3 := register_service gd2 (mkServiceConfig "slack" 5 180 30 true) in
  let gd4 := register_fallback gd3 "slack" slack_fallback in
  let gd5 := register_service gd4 (mkServiceConfig "code_analysis" 2 120 45 true) in
  let gd6 := register_fallback gd5 "code_analysis" code_analysis_fallback in
  let gd7 := register_service gd6 (mkServiceConfig "code_generation" 2 120 45 true) in
  register_fallback gd7 "code_generation" code_generation_fallback.

(** [initialize], called on the global manager (the one that
    [setup_default_services] fills). *)
Definition initialize (gd : GracefulDegradation A W R) : GracefulDegradation A W R :=
  if initialized gd then gd
  else
    let gd' := setup_default_services gd in
    mkGracefulDegradation (services gd') (fallback_handlers gd') true.

End Wrappers.

End graceful_degradation.

(** ** error_handler.py *)

Module error_handler.

(** A free-form Python dictionary that the collector only stores. *)
Definition Dict : Type := list (string * string).

(** What [add_error] reads off the exception object it is given:
    [type(error).__name__], [str(error)], and, when the object is an
    [AgentError], its [error_code] and [details]. *)
Record ErrorObject : Type := mkErrorObject {
  type_name : string;
  str : string;
  agent_error : option (string * Dict)
}.

(** The dictionary [error_info]; the keys ['error_code'] and ['details']
    are present for an [AgentError] only. *)
Record ErrorInfo : Type := mkErrorInfo {
  timestamp : string;
  type : string;
  message : string;
  context : Dict;
  traceback : option string;
  error_code : option string;
  details : option Dict
}.

Record ErrorCollector : Type := mkErrorCollector {
  max_errors : Z;
  errors : list ErrorInfo;
  error_counts : gmap string nat
}.

(** [ErrorCollector.__init__(max_errors)] and its default argument. *)
Definition ErrorCollector_init (max_errors : Z) : ErrorCollector :=
  mkErrorCollector max_errors [] ∅.

Definition default_max_errors : Z := 1000.

(** One call [add_error(error, context)] together with what it reads from
    its environment: [datetime.now().isoformat()] and
    [traceback.format_exc()]. *)
Record AddError : Type := mkAddError {
  error : ErrorObject;
  ctx : option Dict;
  now_isoformat : string;
  format_exc : string
}.

(** Lines 154-167.  Every exception object has [__traceback__], so the
    [hasattr] test on line 159 holds and the trace text is stored. *)
Definition make_error_info (c : AddError) : ErrorInfo :=
  mkErrorInfo (now_isoformat c) (type_name (error c)) (str (error c))
    (default [] (ctx c))
    (Some (format_exc c))
    (fst <$> agent_error (error c))
    (snd <$> agent_error (error c)).

(** [add_error] *)
Definition add_error (ec : ErrorCollector) (c : AddError) : ErrorCollector :=
  let appended := errors ec ++ [make_error_info c] in
  let kept :=
    if max_errors ec <? Z.of_nat (length appended) then tail appended (* pop(0) *)
    else appended in
  let error_type := type_name (error c) in
  mkErrorCollector (max_errors ec) kept
    (<[error_type := (default 0 (error_counts ec !! error_type) + 1)%nat]>
       (error_counts ec)).

Record ErrorSummary : Type := mkErrorSummary {
  total_errors : nat;
  summary_error_counts : gmap string nat;
  recent_errors : list ErrorInfo
}.

(** [get_error_summary]; [self.errors[-10:]] is the last ten records, or
    all of them when there are fewer. *)
Definition get_error_summary (ec : ErrorCollector) : ErrorSummary :=
  mkErrorSummary (length (errors ec)) (error_counts ec)
    (drop (length (errors ec) - 10) (errors ec)).

(** [clear_errors] *)
Definition clear_errors (ec : ErrorCollector) : ErrorCollector :=
  mkErrorCollector (max_errors ec) [] ∅.

(** A run of [add_error] calls, oldest first. *)
Definition add_errors (ec : ErrorCollector) (calls : list AddError) : ErrorCollector :=
  foldl add_error ec calls.

(** How many of the calls carried an error of class [t]. *)
Definition inserted_of_type (t : string) (calls : list AddError) : nat :=
  length (filter (fun c => type_name (error c) = t) calls).

Section Decorators.

(** [A]: the arguments of the decorated function; [W]: the world it acts
    on; [R]: what it returns. *)
Context {A W R : Type}.

Definition Function : Type := A -> W -> Outcome R * W.

(** [time.sleep], which raises on a negative length. *)
Variable time_sleep : float -> W -> Outcome unit * W.

(** What the wrapper of [retry_on_failure] does, in order. *)
Inductive Effect : Type :=
| Called (a : A)
| OnRetry (attempt : Z) (e : PyExc)
| Slept (seconds : float).

Record Run : Type := mkRun {
  result : Outcome R;
  world_after : W;
  effects : list Effect
}.

Definition after (done : list Effect) (r : Run) : Run :=
  mkRun (result r) (world_after r) (done ++ effects r).

(** [range(max_attempts)] *)
Definition range (n : Z) : list Z := Z.of_nat <$> seq 0 (Z.to_nat n).

(** Lines 69-94 of [retry_on_failure]: the [for] loop over what is left of
    [range(max_attempts)], and the [raise last_exception] after it. *)
Fixpoint retry_loop (max_attempts : Z) (backoff_factor : float)
  (exceptions : PyExc -> bool)
  (on_retry : option (Z -> PyExc -> W -> Outcome unit * W))
  (func : Function) (a : A)
  (attempts : list Z) (last_exception : option PyExc) (current_delay : float) (w : W)
  : Run :=
  match attempts with
  | [] =>
      match last_exception with
      | Some e => mkRun (Raise e) w []
      | None =>
          (* [raise None] *)
          mkRun (Raise (Exception "TypeError" "exceptions must derive from BaseException"))
            w []
      end
  | attempt :: rest =>
      let '(r, w1) := func a w in
      match r with
      | Return v => mkRun (Return v) w1 [Called a]
      | Raise e =>
          if exceptions e then
            if (attempt =? max_attempts - 1)%Z then mkRun (Raise e) w1 [Called a]
            else
              let '(r2, w2) :=
                match on_retry with
                | Some callback => callback (attempt + 1)%Z e w1
                | None => (Return tt, w1)
                end in
              let notified :=
                match on_retry with
                | Some _ => [Called a; OnRetry (attempt + 1)%Z e]
                | None => [Called a]
                end in
              match r2 with
              | Raise e2 => mkRun (Raise e2) w2 notified
              | Return _ =>
                  let '(r3, w3) := time_sleep current_delay w2 in
                  match r3 with
                  | Raise e3 => mkRun (Raise e3) w3 (notified ++ [Slept current_delay])
                  | Return _ =>
                      after (notified ++ [Slept current_delay])
                        (retry_loop max_attempts backoff_factor exceptions on_retry
                           func a rest (Some e)
                           (current_delay * backoff_factor)%float w3)
                  end
              end
          else mkRun (Raise e) w1 [Called a]
      end
  end.

(** The function [wrapper] that [retry_on_failure(max_attempts, delay,
    backoff_factor, exceptions, on_retry)] builds around [func];
    [exceptions e] tells whether [e] is an instance of one of the classes
    of the tuple. *)
Definition retry_on_failure (max_attempts : Z) (delay backoff_factor : float)
  (exceptions : PyExc -> bool)
  (on_retry : option (Z -> PyExc -> W -> Outcome unit * W))
  (func : Function) (a : A) (w : W) : Run :=
  retry_loop max_attempts backoff_factor exceptions on_retry func a
    (range max_attempts) None delay w.

(** The function [wrapper] that [safe_execute(operation, fallback_value,
    log_errors, raise_on_error)] builds around [func]; [operation] and
    [log_errors] only shape the log. *)
Definition safe_execute (fallback_value : R) (log_errors raise_on_error : bool)
  (func : Function) : Function :=
  fun a w =>
    let '(r, w1) := func a w in
    match r with
    | Return v => (Return v, w1)
    | Raise e =>
        if isinstance_Exception e then
          if raise_on_error then (Raise e, w1) else (Return fallback_value, w1)
        else (Raise e, w1)
    end.

End Decorators.

Arguments Function : clear implicits.
Arguments Effect : clear implicits.
Arguments Run : clear implicits.

End error_handler.

(** ** health_monitor.py *)

Module health_monitor.

Import error_handler.

Local Open Scope float_scope.

(** Python converts an [int] operand of a float operation to the nearest
    double; the conversion is exact below [2^53]. *)
Definition float_of_Z (z : Z) : float :=
  SF2Prim (binary_normalize prec emax z 0 false).

Definition float_of_nat (n : nat) : float := float_of_Z (Z.of_nat n).

(** A Python [dict], which keeps its keys in insertion order: assigning to
    a key that is present replaces the value in place, a new key goes to
    the end. *)
Fixpoint dict_get {V : Type} (k : string) (d : list (string * V)) : option V :=
  match d with
  | [] => None
  | (k', v) :: d' => if decide (k' = k) then Some v else dict_get k d'
  end.

Fixpoint dict_set {V : Type} (k : string) (v : V) (d : list (string * V))
  : list (string * V) :=
  match d with
  | [] => [(k, v)]
  | (k', v') :: d' =>
      if decide (k' = k) then (k, v) :: d' else (k', v') :: dict_set k v d'
  end.

Record HealthMetrics : Type := mkHealthMetrics {
  timestamp : string;
  cpu_percent : float;
  memory_percent : float;
  memory_available_mb : float;
  disk_usage_percent : float;
  uptime_seconds : float;
  active_connections : nat;
  error_rate : float;
  api_response_time_avg : float;
  status : string
}.

Record APIMetrics : Type := mkAPIMetrics {
  service_name : string;
  total_calls : nat;
  successful_calls : nat;
  failed_calls : nat;
  avg_response_time : float;
  last_error : option string;
  last_success : string
}.

(** The dictionary [self.thresholds], one field per key. *)
Record Thresholds : Type := mkThresholds {
  cpu_warning : float;
  cpu_critical : float;
  memory_warning : float;
  memory_critical : float;
  disk_warning : float;
  disk_critical : float;
  error_rate_warning : float;
  error_rate_critical : float;
  response_time_warning : float;
  response_time_critical : float
}.

Definition default_thresholds : Thresholds :=
  mkThresholds 70.0 90.0 80.0 95.0 85.0 95.0 5.0 15.0 5.0 10.0.

Record HealthMonitor : Type := mkHealthMonitor {
  check_interval : Z;
  start_time : float;
  is_running : bool;
  error_collector : ErrorCollector;
  api_metrics : list (string * APIMetrics);
  health_history : list HealthMetrics;
  max_history : Z;
  thresholds : Thresholds
}.

(** [HealthMonitor.__init__]; [now] is the [time.time()] of line 51. *)
Definition HealthMonitor_init (check_interval : Z) (now : float) : HealthMonitor :=
  mkHealthMonitor check_interval now false
    (ErrorCollector_init default_max_errors) [] [] 100 default_thresholds.

Definition set_api_metrics (d : list (string * APIMetrics)) (hm : HealthMonitor)
  : HealthMonitor :=
  mkHealthMonitor (check_interval hm) (start_time hm) (is_running hm)
    (error_collector hm) d (health_history hm) (max_history hm) (thresholds hm).

Definition set_health_history (h : list HealthMetrics) (hm : HealthMonitor)
  : HealthMonitor :=
  mkHealthMonitor (check_interval hm) (start_time hm) (is_running hm)
    (error_collector hm) (api_metrics hm) h (max_history hm) (thresholds hm).

(** [record_api_call]; [now] is what [datetime.now().isoformat()] returns
    during the call. *)
Definition record_api_call (hm : HealthMonitor) (service : string) (success : bool)
  (response_time : float) (error : option string) (now : string) : HealthMonitor :=
  let metrics :=
    match dict_get service (api_metrics hm) with
    | Some m => m
    | None => mkAPIMetrics service 0 0 0 0.0 None now
    end in
  let total := S (total_calls metrics) in
  let successful := if success then S (successful_calls metrics) else successful_calls metrics in
  let failed := if success then failed_calls metrics else S (failed_calls metrics) in
  let last_err := if success then last_error metrics else error in
  let last_ok := if success then now else last_success metrics in
  let avg :=
    (avg_response_time metrics * float_of_nat (total - 1) + response_time)
    / float_of_nat total in
  set_api_metrics
    (dict_set service
       (mkAPIMetrics (service_name metrics) total successful failed avg last_err last_ok)
       (api_metrics hm))
    hm.

(** [_calculate_error_rate] *)
Definition _calculate_error_rate (hm : HealthMonitor) : float :=
  let total_errors :=
    map_fold (fun _ n acc => (n + acc)%nat) 0%nat (error_counts (error_collector hm)) in
  let total_operations :=
    foldl (fun acc api => (acc + total_calls api.2)%nat) 0%nat (api_metrics hm) in
  if decide (total_operations = 0%nat) then 0.0
  else (float_of_nat total_errors / float_of_nat total_operations) * 100.0.

(** [_calculate_avg_response_time].  The sum is taken from the left, one
    rounded addition per entry, as [sum()] does up to Python 3.11; from
    Python 3.12 [sum()] of floats is a compensated sum, which can differ
    from this one in the last bits.  No property below depends on how the
    sum is rounded. *)
Definition _calculate_avg_response_time (hm : HealthMonitor) : float :=
  match api_metrics hm with
  | [] => 0.0
  | _ =>
      let total_time :=
        foldl (fun acc api => acc + avg_response_time api.2) 0.0 (api_metrics hm) in
      total_time / float_of_nat (length (api_metrics hm))
  end.

(** [x >= y] on doubles. *)
Definition geb (x y : float) : bool := y <=? x.

(** [_determine_health_status] *)
Definition _determine_health_status (th : Thresholds)
  (cpu memory disk error_rate response_time : float) : string :=
  if geb cpu (cpu_critical th) ||
     geb memory (memory_critical th) ||
     geb disk (disk_critical th) ||
     geb error_rate (error_rate_critical th) ||
     geb response_time (response_time_critical th)
  then "critical"%string
  else if geb cpu (cpu_warning th) ||
          geb memory (memory_warning th) ||
          geb disk (disk_warning th) ||
          geb error_rate (error_rate_warning th) ||
          geb response_time (response_time_warning th)
  then "warning"%string
  else "healthy"%string.

#[global] Instance Outcome_ret : MRet Outcome := fun _ r => Return r.
#[global] Instance Outcome_bind : MBind Outcome := fun _ _ f m =>
  match m with
  | Return r => f r
  | Raise e => Raise e
  end.

(** What one run of [collect_metrics] reads from outside the monitor, in
    the order it reads: each reading either yields its value or raises. *)
Record Sources : Type := mkSources {
  (** [psutil.cpu_percent(interval=1)] *)
  src_cpu_percent : Outcome float;
  (** [psutil.virtual_memory()]: its [percent] and [available] (bytes) *)
  src_virtual_memory : Outcome (float * Z);
  (** lines 126-128: [psutil.disk_usage] of the current drive, its [percent] *)
  src_disk_usage : Outcome float;
  (** [time.time()] *)
  src_time : float;
  (** [len(psutil.net_connections())] *)
  src_net_connections : Outcome nat;
  (** [datetime.now().isoformat()] *)
  src_now : string
}.

(** Lines 121-158: the body of the [try]. *)
Definition collect_metrics_try (hm : HealthMonitor) (src : Sources)
  : Outcome HealthMetrics :=
  cpu ← src_cpu_percent src;
  memory ← src_virtual_memory src;
  disk ← src_disk_usage src;
  let uptime := src_time src - start_time hm in
  connections ← src_net_connections src;
  let error_rate := _calculate_error_rate hm in
  let avg_response_time := _calculate_avg_response_time hm in
  let status :=
    _determine_health_status (thresholds hm) cpu memory.1 disk
      error_rate avg_response_time in
  mret (mkHealthMetrics (src_now src) cpu memory.1
          (float_of_Z memory.2 / float_of_Z (1024 * 1024))
          disk uptime connections error_rate avg_response_time status).

(** Lines 162-173: the sample built by the handler. *)
Definition failure_metrics (now : string) : HealthMetrics :=
  mkHealthMetrics now 0.0 0.0 0.0 0.0 0.0 0%nat 100.0 0.0 "critical".

(** [collect_metrics] *)
Definition collect_metrics (hm : HealthMonitor) (src : Sources) : Outcome HealthMetrics :=
  match collect_metrics_try hm src with
  | Return metrics => Return metrics
  | Raise e =>
      if isinstance_Exception e then Return (failure_metrics (src_now src))
      else Raise e
  end.

(** One pass of the monitoring loop reads the sources and then reports
    (lines 110-113: [_check_alerts] and [log_metrics], which only write to
    the log but may raise). *)
Record Tick : Type := mkTick {
  sources : Sources;
  reporting : Outcome unit
}.

(** Lines 103-107: append the sample, then drop the oldest one if the
    history has outgrown [max_history]. *)
Definition append_history (hm : HealthMonitor) (metrics : HealthMetrics) : HealthMonitor :=
  let appended := health_history hm ++ [metrics] in
  let kept :=
    if (max_history hm <? Z.of_nat (length appended))%Z then tail appended (* pop(0) *)
    else appended in
  set_health_history kept hm.

(** Lines 101-116: the body of the [while].  [Some e] is an exception that
    leaves the loop. *)
Definition monitoring_iteration (hm : HealthMonitor) (t : Tick)
  : option PyExc * HealthMonitor :=
  match collect_metrics hm (sources t) with
  | Raise e => if isinstance_Exception e then (None, hm) else (Some e, hm)
  | Return metrics =>
      let hm' := append_history hm metrics in
      match reporting t with
      | Return _ => (None, hm')
      | Raise e => if isinstance_Exception e then (None, hm') else (Some e, hm')
      end
  end.

(** [_monitoring_loop]: one [Tick] for each time [stop_event.wait] times
    out; the list ends when the stop event is set. *)
Fixpoint _monitoring_loop (hm : HealthMonitor) (ticks : list Tick)
  : option PyExc * HealthMonitor :=
  match ticks with
  | [] => (None, hm)
  | t :: rest =>
      match monitoring_iteration hm t with
      | (None, hm') => _monitoring_loop hm' rest
      | (Some e, hm') => (Some e, hm')
      end
  end.

(** The lines [_check_alerts] writes to the log: which threshold was
    reached, and the value that the line prints. *)
Inductive Alert : Type :=
| CpuCritical (cpu : float)
| CpuHigh (cpu : float)
| MemoryCritical (memory : float)
| MemoryHigh (memory : float)
| ErrorRateCritical (rate : float)
| ErrorRateHigh (rate : float).

(** [_check_alerts]: the list [alerts] it builds and logs. *)
Definition _check_alerts (hm : HealthMonitor) (metrics : HealthMetrics) : list Alert :=
  let th := thresholds hm in
  (if geb (cpu_percent metrics) (cpu_critical th) then [CpuCritical (cpu_percent metrics)]
   else if geb (cpu_percent metrics) (cpu_warning th) then [CpuHigh (cpu_percent metrics)]
   else [])
  ++
  (if geb (memory_percent metrics) (memory_critical th)
   then [MemoryCritical (memory_percent metrics)]
   else if geb (memory_percent metrics) (memory_warning th)
   then [MemoryHigh (memory_percent metrics)]
   else [])
  ++
  (if geb (error_rate metrics) (error_rate_critical th)
   then [ErrorRateCritical (error_rate metrics)]
   else if geb (error_rate metrics) (error_rate_warning th)
   then [ErrorRateHigh (error_rate metrics)]
   else []).

(** The two dictionaries that [get_health_status] returns. *)
Inductive HealthStatus : Type :=
| Snapshot (snapshot_status snapshot_timestamp : string) (uptime_hours : float)
    (system_cpu_percent system_memory_percent system_memory_available_mb
       system_disk_usage_percent : float)
    (system_active_connections : nat)
    (performance_error_rate performance_avg_response_time : float)
    (apis : list (string * APIMetrics))
    (errors : ErrorSummary)
| NoData (nodata_status nodata_message nodata_timestamp : string).

(** Lines 274-291 and 307-324: the dictionary built from a sample. *)
Definition snapshot (hm : HealthMonitor) (m : HealthMetrics) : HealthStatus :=
  Snapshot (status m) (timestamp m) (uptime_seconds m / float_of_Z 3600)
    (cpu_percent m) (memory_percent m) (memory_available_mb m)
    (disk_usage_percent m) (active_connections m)
    (error_rate m) (api_response_time_avg m)
    (api_metrics hm) (get_error_summary (error_collector hm)).

(** [get_health_status]; the sources are read only when the history is
    empty. *)
Definition get_health_status (hm : HealthMonitor) (src : Sources) : Outcome HealthStatus :=
  match last (health_history hm) with
  | None =>
      match collect_metrics hm src with
      | Return current_metrics => Return (snapshot hm current_metrics)
      | Raise e =>
          if isinstance_Exception e then
            Return (NoData "unknown" "No hay datos disponibles" (src_now src))
          else Raise e
      end
  | Some latest => Return (snapshot hm latest)
  end.

End health_monitor.

(** * Vocabulary of the properties *)

(** ** Doubles as rationals *)

(** [m * 2^e] *)
Definition dyadic (m e : Z) : Q := (inject_Z m * 2 ^ e)%Q.

(** The rationals that a finite binary64 value holds: a significand of at
    most 53 bits, and an exponent within the range of the format, the
    subnormal numbers included. *)
Definition binary64 (q : Q) : Prop :=
  exists m e : Z, Z.abs m < 2 ^ 53 /\ -1074 <= e <= 971 /\ (q == dyadic m e)%Q.

(** The elapsed time has reached a double above [rt].  Rounding to
    binary64 is monotone and leaves doubles alone, so the difference of
    the time stamps as the code computes it is then above [rt] too. *)
Definition elapsed_beyond (elapsed : Q) (rt : Z) : Prop :=
  exists d : Q, binary64 d /\ (inject_Z rt < d)%Q /\ (d <= elapsed)%Q.

(** [x >= q] for a double [x] and a rational [q], read off the value that
    [x] holds: false for a NaN, true for plus infinity, false for minus
    infinity, and the order of the rationals otherwise. *)
Definition at_least (x : float) (q : Q) : Prop :=
  match Prim2SF x with
  | S754_nan => False
  | S754_infinity s => s = false
  | S754_zero _ => (q <= 0)%Q
  | S754_finite s m e => (q <= dyadic (if s then Z.neg m else Z.pos m) e)%Q
  end.

Section ReachableStates.

Import graceful_degradation.
Context {A W R : Type}.
Variable time_time : W -> Q.

(** The breaker of §3 of the specification: no failure is counted while
    the status is HEALTHY, and the threshold is met while it is FAILED. *)
Definition breaker_invariant (cb : CircuitBreaker) : Prop :=
  (status cb = HEALTHY -> failure_count cb = 0) /\
  (status cb = FAILED -> failure_count cb >= max_failures (config cb)).

(** Every breaker of the registry satisfies the invariant. *)
Definition registry_invariant (gd : GracefulDegradation A W R) : Prop :=
  forall service_name cb,
    services gd !! service_name = Some cb -> breaker_invariant cb.

(** The breaker let the call through: it was not FAILED, or the recovery
    time had passed. *)
Definition passes (cb : CircuitBreaker) (now : Q) : Prop :=
  status cb <> FAILED \/
  (inject_Z (recovery_time (config cb)) < now - last_failure_time cb)%Q.

(** The breaker lets the call through, in this model and in binary64
    alike: it is not FAILED, or the time since the last failure has
    reached a double above [recovery_time]. *)
Definition let_through (cb : CircuitBreaker) (now : Q) : Prop :=
  status cb <> FAILED \/
  elapsed_beyond (now - last_failure_time cb) (recovery_time (config cb)).

(** The managers that the public operations build from a new one.  A call
    through [call_service] is a success or a failure of the wrapped
    operation according to the callable it is given. *)
Inductive reachable : GracefulDegradation A W R -> Prop :=
| reach_init :
    reachable GracefulDegradation_init
| reach_register_service gd cfg :
    reachable gd -> reachable (register_service gd cfg)
| reach_register_fallback gd service_name fallback :
    reachable gd -> reachable (register_fallback gd service_name fallback)
| reach_mark_service_unavailable gd service_name now :
    reachable gd -> reachable (mark_service_unavailable gd service_name now)
| reach_is_service_available gd service_name :
    reachable gd -> reachable (is_service_available gd service_name).2
| reach_call_service gd service_name func a w :
    reachable gd ->
    reachable (state (call_service time_time gd service_name func a w)).

End ReachableStates.

(** The first exception raised by a metrics source, in the order in which
    [collect_metrics] reads them. *)
Definition first_raised (src : health_monitor.Sources) : option PyExc :=
  match health_monitor.src_cpu_percent src with
  | Raise e => Some e
  | Return _ =>
      match health_monitor.src_virtual_memory src with
      | Raise e => Some e
      | Return _ =>
          match health_monitor.src_disk_usage src with
          | Raise e => Some e
          | Return _ =>
              match health_monitor.src_net_connections src with
              | Raise e => Some e
              | Return _ => None
              end
          end
      end
  end.

(** ** Concrete scenarios

    The world is the clock alone, callables take no argument and return
    a string. *)

Module scenario.

Import graceful_degradation.

Definition clock (w : Q) : Q := w.

Definition succeed (v : string) : Callable unit Q string :=
  fun _ w => (Return v, w).

Definition fail (e : PyExc) : Callable unit Q string :=
  fun _ w => (Raise e, w).

Definition llm_config : ServiceConfig := mkServiceConfig "llm" 3 300 60 true.

(** A breaker that failed for the third time at time 100. *)
Definition llm_failed : CircuitBreaker := mkCircuitBreaker llm_config 3 100 FAILED.


Definition timed_out : PyExc := Exception "TimeoutError" "timed out".

(** "llm" registered, then tripped by hand at time 5. *)
Definition tripped : GracefulDegradation unit Q string :=
  mark_service_unavailable (register_service GracefulDegradation_init llm_config) "llm" 5.

(** "llm" registered with [fallback_enabled=False] and with a fallback. *)
Definition no_fallback_config : ServiceConfig := mkServiceConfig "llm" 3 300 60 false.

Definition with_disabled_fallback : GracefulDegradation unit Q string :=
  register_fallback (register_service GracefulDegradation_init no_fallback_config)
    "llm" (succeed "degraded").

(** "probe" registered with [max_failures=1] and no fallback; a call fails
    at time 0, which trips the breaker; the next call, at time 100, is let
    through and interrupted by a [KeyboardInterrupt]. *)
Definition probe_config : ServiceConfig := mkServiceConfig "probe" 1 300 60 true.

Definition probe_failed : GracefulDegradation unit Q string :=
  state (call_service clock (register_service GracefulDegradation_init probe_config)
           "probe" (fail timed_out) tt 0%Q).

Definition probe_interrupted : GracefulDegradation unit Q string :=
  state (call_service clock probe_failed "probe"
           (fail (BaseException "KeyboardInterrupt" "interrupted")) tt 100%Q).

(** Two calls of [add_error]: a [ValueError], and an [AgentError] of the
    validation kind. *)
Definition value_error : error_handler.AddError :=
  error_handler.mkAddError
    (error_handler.mkErrorObject "ValueError" "bad value" None)
    None "2024-01-01T00:00:00" "NoneType: None".

Definition validation_error : error_handler.AddError :=
  error_handler.mkAddError
    (error_handler.mkErrorObject "ValidationError" "empty code"
       (Some ("VALIDATION_ERROR"%string, [])))
    (Some [("operation"%string, "analyze"%string)])
    "2024-01-01T00:00:01" "NoneType: None".

(** A monitor started at time 1000 and a reading in which the disk cannot
    be read. *)
Definition new_monitor : health_monitor.HealthMonitor :=
  health_monitor.HealthMonitor_init 30 1000%float.

Definition disk_unreadable : health_monitor.Sources :=
  health_monitor.mkSources
    (Return 12.5%float)
    (Return (50%float, 4294967296))
    (Raise (Exception "FileNotFoundError" "no such drive"))
    1030%float
    (Return 7%nat)
    "2024-01-01T00:00:30".

End scenario.

(** ** Runs of operations *)

Section ManagerRuns.

Import graceful_degradation.
Context {A W R : Type}.
Variable time_time : W -> Q.
Variables anthropic_literal slack_literal code_analysis_literal
  code_generation_literal : R.

(** A run of calls on one breaker, oldest first: the breaker at the end
    and everything that happened. *)
Definition call_each (cb : CircuitBreaker) (calls : list (Callable A W R * A * W))
  : CircuitBreaker * list (Event A) :=
  foldl (fun '(cb, tr) '(func, a, w) =>
           let r := call time_time cb func a w in (state r, tr ++ trace r))
    (cb, []) calls.

(** How many times a callable was invoked as the wrapped operation. *)
Fixpoint invocations (tr : list (Event A)) : nat :=
  match tr with
  | [] => 0
  | Invoke _ :: tr' => S (invocations tr')
  | _ :: tr' => invocations tr'
  end.

(** The operation of the call raises an exception that [except Exception]
    catches. *)
Definition fails (c : Callable A W R * A * W) : Prop :=
  exists e w', c.1.1 c.1.2 c.2 = (Raise e, w') /\ isinstance_Exception e = true.

(** One public operation on the manager. *)
Inductive manager_step : GracefulDegradation A W R -> GracefulDegradation A W R -> Prop :=
| step_register_service gd cfg :
    manager_step gd (register_service gd cfg)
| step_register_fallback gd service_name fallback :
    manager_step gd (register_fallback gd service_name fallback)
| step_mark_service_unavailable gd service_name now :
    manager_step gd (mark_service_unavailable gd service_name now)
| step_is_service_available gd service_name :
    manager_step gd (is_service_available gd service_name).2
| step_call_service gd service_name func a w :
    manager_step gd (state (call_service time_time gd service_name func a w))
| step_with_graceful_degradation gd service_name inline func a w :
    manager_step gd
      (state (with_graceful_degradation time_time service_name inline func gd a w))
| step_initialize gd :
    manager_step gd
      (initialize anthropic_literal slack_literal code_analysis_literal
         code_generation_literal gd).

(** Some registered service has a fallback. *)
Definition has_covered_service (gd : GracefulDegradation A W R) : Prop :=
  exists service_name,
    is_Some (services gd !! service_name) /\
    is_Some (fallback_handlers gd !! service_name).

End ManagerRuns.

Section MonitorRuns.

Import health_monitor.

(** The monitors that the methods of [HealthMonitor] build from a new one. *)
Inductive monitor_reachable : HealthMonitor -> Prop :=
| reach_monitor_init check_interval now :
    monitor_reachable (HealthMonitor_init check_interval now)
| reach_record_api_call hm service success response_time error now :
    monitor_reachable hm ->
    monitor_reachable (record_api_call hm service success response_time error now)
| reach_monitoring_loop hm ticks :
    monitor_reachable hm ->
    monitor_reachable (_monitoring_loop hm ticks).2.

End MonitorRuns.

Section DecoratorRuns.

Import error_handler.
Context {A : Type}.

(** How many times the wrapper called the decorated function. *)
Fixpoint calls_made (effs : list (Effect A)) : nat :=
  match effs with
  | [] => 0
  | Called _ :: effs' => S (calls_made effs')
  | _ :: effs' => calls_made effs'
  end.

(** The lengths the wrapper slept for, in order. *)
Fixpoint sleeps (effs : list (Effect A)) : list float :=
  match effs with
  | [] => []
  | Slept d :: effs' => d :: sleeps effs'
  | _ :: effs' => sleeps effs'
  end.

(** [n] delays, each the product of the one before by the factor. *)
Fixpoint backoff_delays (delay backoff_factor : float) (n : nat) : list float :=
  match n with
  | O => []
  | S k => delay :: backoff_delays (delay * backoff_factor)%float backoff_factor k
  end.

End DecoratorRuns.

(** ** More scenarios *)

Module example.

Import graceful_degradation scenario.

(** Three calls, at times 1, 2 and 3, whose operation times out. *)
Definition three_failures : list (Callable unit Q string * unit * Q) :=
  [(fail timed_out, tt, 1%Q); (fail timed_out, tt, 2%Q); (fail timed_out, tt, 3%Q)].

(** "llm" registered with a fallback. *)
Definition covered : GracefulDegradation unit Q string :=
  register_fallback (register_service GracefulDegradation_init llm_config)
    "llm" (succeed "degraded").

(** The same, tripped by hand at time 5. *)
Definition covered_tripped : GracefulDegradation unit Q string :=
  mark_service_unavailable covered "llm" 5.

Definition interrupted : PyExc := BaseException "KeyboardInterrupt" "interrupted".

(** Decorated functions on a world without state, and a [sleep] that
    returns. *)
Definition sleep_returns : float -> unit -> Outcome unit * unit :=
  fun _ w => (Return tt, w).

Definition answers (v : string) : error_handler.Function unit unit string :=
  fun _ w => (Return v, w).

Definition refuses (e : PyExc) : error_handler.Function unit unit string :=
  fun _ w => (Raise e, w).

Definition connection_error : PyExc := Exception "ConnectionError" "connection reset".

(** A monitor that recorded two calls and ran one pass of the loop with
    an unreadable disk. *)
Definition busy_monitor : health_monitor.HealthMonitor :=
  (health_monitor._monitoring_loop
     (health_monitor.record_api_call
        (health_monitor.record_api_call new_monitor "anthropic" true 2%float None
           "2024-01-01T00:00:01")
        "anthropic" false 4%float (Some "timed out"%string) "2024-01-01T00:00:02")
     [health_monitor.mkTick disk_unreadable (Return tt)]).2.

End example.


(** * Properties of the embedding *)

(** ** The order of the doubles

    [<=?] on doubles is the order of the numbers they hold.  A finite
    double is [m * 2^e] with [m] and [e] in canonical form, and the
    comparison of two of them, which looks at the exponents first, is the
    comparison of the rationals. *)

Section DoubleOrder.

Lemma digits2_pos_bounds (m : positive) :
  2 ^ (Z.pos (digits2_pos m) - 1) <= Z.pos m < 2 ^ Z.pos (digits2_pos m).
Proof.
  induction m as [m IH|m IH|]; cbn [digits2_pos].
  - rewrite Pos2Z.inj_succ, Pos2Z.inj_xI.
    replace (Z.succ (Z.pos (digits2_pos m)) - 1)
      with (Z.succ (Z.pos (digits2_pos m) - 1)) by lia.
    rewrite !Z.pow_succ_r by lia. lia.
  - rewrite Pos2Z.inj_succ. change (Z.pos m~0) with (2 * Z.pos m).
    replace (Z.succ (Z.pos (digits2_pos m)) - 1)
      with (Z.succ (Z.pos (digits2_pos m) - 1)) by lia.
    rewrite !Z.pow_succ_r by lia. lia.
  - simpl. lia.
Qed.

(** The canonical form: at most 53 digits, exactly 53 unless the exponent
    is the least one. *)
Lemma bounded_canonical (m : positive) (e : Z) :
  bounded prec emax m e = true ->
  Z.pos (digits2_pos m) <= 53 /\ -1074 <= e <= 971 /\
  (Z.pos (digits2_pos m) = 53 \/ e = -1074).
Proof.
  unfold bounded, canonical_mantissa, fexp, emin. intros H.
  apply andb_true_iff in H as [H1 H2].
  apply Z.eqb_eq in H1. apply Z.leb_le in H2.
  change prec with 53 in *. change emax with 1024 in *. lia.
Qed.

(** Every finite double is a [binary64] rational. *)
Lemma bounded_binary64 (s : bool) (m : positive) (e : Z) :
  bounded prec emax m e = true ->
  binary64 (dyadic (if s then Z.neg m else Z.pos m) e).
Proof.
  intros H. apply bounded_canonical in H as (Hd & He & _).
  pose proof (digits2_pos_bounds m) as [_ Hm].
  exists (if s then Z.neg m else Z.pos m), e.
  split; [|split; [assumption|reflexivity]].
  assert (Z.pos m < 2 ^ 53).
  { eapply Z.lt_le_trans; [exact Hm|]. apply Z.pow_le_mono_r; lia. }
  destruct s; simpl; assumption.
Qed.

Lemma canonical_lt (m1 : positive) (e1 : Z) (m2 : positive) (e2 : Z) :
  bounded prec emax m1 e1 = true -> bounded prec emax m2 e2 = true ->
  e1 < e2 ->
  Z.pos m1 * 2 ^ (e1 + 1074) < Z.pos m2 * 2 ^ (e2 + 1074).
Proof.
  intros H1 H2 Hlt. apply bounded_canonical in H1, H2.
  pose proof (digits2_pos_bounds m1) as B1.
  pose proof (digits2_pos_bounds m2) as B2.
  destruct H1 as (D1 & E1 & _), H2 as (D2 & E2 & [N2|N2]); [|lia].
  rewrite N2 in B2.
  assert (M1 : Z.pos m1 < 2 ^ 53).
  { eapply Z.lt_le_trans; [apply B1|]. apply Z.pow_le_mono_r; lia. }
  replace (e2 + 1074) with ((e1 + 1074) + (e2 - e1)) by lia.
  rewrite (Z.pow_add_r 2 (e1 + 1074) (e2 - e1)) by lia.
  assert (P : 0 < 2 ^ (e1 + 1074)) by (apply Z.pow_pos_nonneg; lia).
  assert (K : 2 ^ 1 <= 2 ^ (e2 - e1)) by (apply Z.pow_le_mono_r; lia).
  change (53 - 1) with 52 in B2.
  destruct B2 as [B2 _].
  set (p := 2 ^ (e1 + 1074)) in *. set (k := 2 ^ (e2 - e1)) in *.
  change (2 ^ 1) with 2 in K.
  change (2 ^ 53) with (2 * 2 ^ 52) in M1.
  set (h := 2 ^ 52) in *.
  assert (Z.pos m1 * p < 2 * h * p) by nia.
  assert (h * p <= Z.pos m2 * p) by (apply Z.mul_le_mono_nonneg_r; lia).
  assert (Z.pos m2 * p * 2 <= Z.pos m2 * p * k)
    by (apply Z.mul_le_mono_nonneg_l; [apply Z.mul_nonneg_nonneg|]; lia).
  rewrite Z.mul_assoc. lia.
Qed.

Lemma dyadic_scaled (m e : Z) :
  -1074 <= e ->
  (dyadic m e == inject_Z (m * 2 ^ (e + 1074)) * 2 ^ (-1074))%Q.
Proof.
  intros He. unfold dyadic.
  rewrite inject_Z_mult, Zpower_Qpower by lia.
  rewrite <- Qmult_assoc, <- Qpower_plus by discriminate.
  replace (e + 1074 + -1074) with e by lia. reflexivity.
Qed.

Lemma dyadic_le (m1 e1 m2 e2 : Z) :
  -1074 <= e1 -> -1074 <= e2 ->
  (dyadic m1 e1 <= dyadic m2 e2)%Q <->
  m1 * 2 ^ (e1 + 1074) <= m2 * 2 ^ (e2 + 1074).
Proof.
  intros H1 H2. rewrite !dyadic_scaled by assumption.
  rewrite Qmult_le_r by (apply Qpower_0_lt; reflexivity).
  rewrite <- Zle_Qle. reflexivity.
Qed.

Lemma dyadic_positive (m : positive) (e : Z) : (0 < dyadic (Z.pos m) e)%Q.
Proof.
  unfold dyadic. apply Qmult_lt_0_compat; [reflexivity|].
  apply Qpower_0_lt. reflexivity.
Qed.

Lemma dyadic_negative (m : positive) (e : Z) : (dyadic (Z.neg m) e < 0)%Q.
Proof.
  unfold dyadic.
  apply (Qlt_le_trans _ (0 * 2 ^ e)); [|rewrite Qmult_0_l; apply Qle_refl].
  apply Qmult_lt_compat_r; [apply Qpower_0_lt|]; reflexivity.
Qed.

(** A positive finite double [c], holding [q], is below or equal to [y]
    exactly when [q] is at most what [y] holds. *)
Lemma SFleb_positive_finite (m1 : positive) (e1 : Z) (y : spec_float) (q : Q) :
  bounded prec emax m1 e1 = true ->
  SpecFloat.valid_binary prec emax y = true ->
  (q == dyadic (Z.pos m1) e1)%Q ->
  SFleb (S754_finite false m1 e1) y = true <->
  match y with
  | S754_nan => False
  | S754_infinity s => s = false
  | S754_zero _ => (q <= 0)%Q
  | S754_finite s m e => (q <= dyadic (if s then Z.neg m else Z.pos m) e)%Q
  end.
Proof.
  intros V1 Vy Hq.
  pose proof (dyadic_positive m1 e1) as Hpos.
  destruct y as [s|s| |s m e]; unfold SFleb, SFcompare.
  - split; [discriminate|]. intros H. rewrite Hq in H.
    exfalso. exact (Qlt_not_le _ _ Hpos H).
  - destruct s; split; try reflexivity; discriminate.
  - split; [discriminate|contradiction].
  - simpl in Vy. rewrite Hq.
    pose proof (bounded_canonical _ _ V1) as (_ & E1 & _).
    pose proof (bounded_canonical _ _ Vy) as (_ & E2 & _).
    destruct s.
    + split; [discriminate|]. intros H. exfalso.
      pose proof (dyadic_negative m e) as Hneg.
      apply (Qlt_not_le _ _ Hpos). eapply Qle_trans; [exact H|].
      apply Qlt_le_weak. exact Hneg.
    + rewrite dyadic_le by lia.
      destruct (Z.compare_spec e1 e) as [Heq|Hlt|Hgt].
      * subst e. rewrite Pos.compare_cont_spec. simpl.
        assert (P : 0 < 2 ^ (e1 + 1074)) by (apply Z.pow_pos_nonneg; lia).
        destruct (Pos.compare_spec m1 m) as [->|Hm|Hm]; simpl.
        -- split; [lia|reflexivity].
        -- split; [intros _; nia|reflexivity].
        -- split; [discriminate|]. intros H. exfalso. nia.
      * pose proof (canonical_lt _ _ _ _ V1 Vy Hlt). split; [lia|reflexivity].
      * pose proof (canonical_lt _ _ _ _ Vy V1 Hgt).
        split; [discriminate|]. intros H0. lia.
Qed.

(** The test [x >= c] of the code, for a positive threshold [c] that
    holds the rational [q]. *)
Lemma geb_at_least (x c : float) (m : positive) (e : Z) (q : Q) :
  Prim2SF c = S754_finite false m e ->
  (q == dyadic (Z.pos m) e)%Q ->
  health_monitor.geb x c = true <-> at_least x q.
Proof.
  intros Hc Hq. unfold health_monitor.geb, at_least. rewrite leb_spec, Hc.
  apply SFleb_positive_finite; [|apply Prim2SF_valid|exact Hq].
  pose proof (Prim2SF_valid c) as V. rewrite Hc in V. exact V.
Qed.

End DoubleOrder.

(** ** A gap between the exact and the rounded difference

    The doubles nearest to 0.1 and to 60.1 differ by [60 + 102 * 2^-56],
    which is above 60 but below the first double after 60: the exact
    difference is beyond 60 and the rounded one is 60.  [elapsed_beyond]
    does not hold there. *)

Section RoundingGap.

Lemma dyadic_60 : (60 == dyadic 60 0)%Q.
Proof. reflexivity. Qed.

Lemma no_double_just_above_60 (d : Q) :
  binary64 d -> (60 < d)%Q -> (d <= dyadic (60 * 2 ^ 56 + 102) (-56))%Q -> False.
Proof.
  intros (m & e & Hm & He & Hd) Hlt Hle.
  rewrite Hd in Hlt, Hle.
  apply dyadic_le in Hle; [|lia|lia].
  assert (Hgt : ~ m * 2 ^ (e + 1074) <= 60 * 2 ^ (0 + 1074)).
  { intros H. apply (Qlt_not_le _ _ Hlt). rewrite dyadic_60.
    apply dyadic_le; [lia|lia|exact H]. }
  apply Z.nle_gt in Hgt.
  change (0 + 1074) with 1074 in Hgt. change (-56 + 1074) with 1018 in Hle.
  assert (P : 0 < 2 ^ (e + 1074)) by (apply Z.pow_pos_nonneg; lia).
  assert (M : 0 < m).
  { destruct (Z.lt_ge_cases 0 m) as [|Hn]; [assumption|]. exfalso.
    assert (m * 2 ^ (e + 1074) <= 0) by (apply Z.mul_nonpos_nonneg; lia).
    assert (0 < 60 * 2 ^ 1074) by (apply Z.mul_pos_pos; [lia|apply Z.pow_pos_nonneg; lia]).
    lia. }
  destruct (Z.lt_ge_cases (e + 1074) 1027) as [Hk|Hk].
  - assert (H : m * 2 ^ (e + 1074) <= m * 2 ^ 1026).
    { apply Z.mul_le_mono_nonneg_l; [lia|]. apply Z.pow_le_mono_r; lia. }
    assert (H' : m * 2 ^ 1026 < 2 ^ 53 * 2 ^ 1026).
    { apply Z.mul_lt_mono_pos_r; [apply Z.pow_pos_nonneg; lia|lia]. }
    assert (H'' : 2 ^ 53 * 2 ^ 1026 <= 60 * 2 ^ 1074).
    { vm_compute. discriminate. }
    lia.
  - replace (e + 1074) with (1027 + (e + 47)) in Hle, Hgt by lia.
    rewrite (Z.pow_add_r 2 1027 (e + 47)) in Hle, Hgt by lia.
    set (j := 2 ^ (e + 47)) in *.
    assert (J : 0 < j) by (apply Z.pow_pos_nonneg; lia).
    assert (Hlo : 60 * 2 ^ 47 * 2 ^ 1027 < m * j * 2 ^ 1027).
    { replace (60 * 2 ^ 47 * 2 ^ 1027) with (60 * 2 ^ 1074) by (vm_compute; reflexivity).
      replace (m * j * 2 ^ 1027) with (m * (2 ^ 1027 * j)) by ring. exact Hgt. }
    apply Z.mul_lt_mono_pos_r in Hlo; [|apply Z.pow_pos_nonneg; lia].
    assert (Hhi : m * j * 2 ^ 9 * 2 ^ 1018 <= (60 * 2 ^ 56 + 102) * 2 ^ 1018).
    { replace (m * j * 2 ^ 9 * 2 ^ 1018) with (m * (2 ^ 1027 * j)).
      - exact Hle.
      - replace (2 ^ 1027) with (2 ^ 9 * 2 ^ 1018) by (vm_compute; reflexivity). ring. }
    apply Z.mul_le_mono_pos_r in Hhi; [|apply Z.pow_pos_nonneg; lia].
    change (2 ^ 9) with 512 in Hhi. change (2 ^ 56) with (2 ^ 47 * 512) in Hhi.
    set (h := 2 ^ 47) in *. lia.
Qed.

(** The breaker that failed at 0.1 and is called at 60.1: the model lets
    the call through, the code does not, and [let_through] does not
    hold. *)
Lemma gap_between_exact_and_rounded_difference :
  let last := dyadic 7205759403792794 (-56) in
  let now := dyadic 8458323050155213 (-47) in
  let cb :=
    graceful_degradation.mkCircuitBreaker scenario.llm_config 3 last
      graceful_degradation.FAILED in
  Prim2SF 0x1.999999999999ap-4 = S754_finite false 7205759403792794 (-56) /\
  Prim2SF 0x1.e0ccccccccccdp+5 = S754_finite false 8458323050155213 (-47) /\
  Prim2SF (0x1.e0ccccccccccdp+5 - 0x1.999999999999ap-4) = Prim2SF 60 /\
  (now - last == dyadic (60 * 2 ^ 56 + 102) (-56))%Q /\
  passes cb now /\
  ~ let_through cb now.
Proof.
  cbv zeta.
  assert (E : (dyadic 8458323050155213 (-47) - dyadic 7205759403792794 (-56)
               == dyadic (60 * 2 ^ 56 + 102) (-56))%Q) by (vm_compute; reflexivity).
  split; [reflexivity|]. split; [reflexivity|]. split; [reflexivity|].
  split; [exact E|]. split.
  - right. simpl. rewrite E. vm_compute. reflexivity.
  - intros [H|(d & Hd & Hlt & Hle)]; [apply H; reflexivity|].
    simpl in Hlt, Hle. rewrite E in Hle.
    exact (no_double_just_above_60 d Hd Hlt Hle).
Qed.

End RoundingGap.
(** * Properties of the circuit breaker and its manager *)

Section BreakerProperties.

Import graceful_degradation.
Context {A W R : Type}.
Variable time_time : W -> Q.

Lemma Qgtb_true (x y : Q) : Qgtb x y = true <-> (y < x)%Q.
Proof.
  unfold Qgtb. rewrite negb_true_iff. split.
  - intros H. apply Qnot_le_lt. intros Hle.
    apply Qle_bool_iff in Hle. congruence.
  - intros H. destruct (Qle_bool x y) eqn:E; [|reflexivity].
    apply Qle_bool_iff in E. exfalso. exact (Qlt_not_le _ _ H E).
Qed.

Lemma Qgtb_false (x y : Q) : Qgtb x y = false <-> (x <= y)%Q.
Proof.
  unfold Qgtb. rewrite negb_false_iff. apply Qle_bool_iff.
Qed.

(** A double is reached by itself. *)
Lemma elapsed_beyond_exact (elapsed : Q) (rt : Z) :
  binary64 elapsed -> (inject_Z rt < elapsed)%Q -> elapsed_beyond elapsed rt.
Proof.
  intros Hd Hlt. exists elapsed. split; [assumption|]. split; [assumption|].
  apply Qle_refl.
Qed.

Lemma elapsed_beyond_lt (elapsed : Q) (rt : Z) :
  elapsed_beyond elapsed rt -> (inject_Z rt < elapsed)%Q.
Proof.
  intros (d & _ & Hlt & Hle). exact (Qlt_le_trans _ _ _ Hlt Hle).
Qed.

Lemma let_through_passes (cb : CircuitBreaker) (now : Q) :
  let_through cb now -> passes cb now.
Proof.
  intros [H|H]; [left; assumption|right]. now apply elapsed_beyond_lt.
Qed.

(** What [check_recovery] answers, by cases. *)
Lemma check_recovery_short_circuit (cb : CircuitBreaker) (now : Q) :
  status cb = FAILED ->
  (now - last_failure_time cb <= inject_Z (recovery_time (config cb)))%Q ->
  check_recovery (A:=A) cb now =
    inr (ServiceUnavailableError ("Servicio " ++ name (config cb) ++ " no disponible")).
Proof.
  intros Hs Hle. unfold check_recovery.
  destruct (decide (status cb = FAILED)) as [_|Hn]; [|contradiction].
  apply Qgtb_false in Hle. now rewrite Hle.
Qed.

Lemma check_recovery_recovering (cb : CircuitBreaker) (now : Q) :
  status cb = FAILED ->
  (inject_Z (recovery_time (config cb)) < now - last_failure_time cb)%Q ->
  check_recovery (A:=A) cb now = inl (set_status RECOVERING cb, [SetStatus RECOVERING]).
Proof.
  intros Hs Hlt. unfold check_recovery.
  destruct (decide (status cb = FAILED)) as [_|Hn]; [|contradiction].
  apply Qgtb_true in Hlt. now rewrite Hlt.
Qed.

Lemma check_recovery_not_failed (cb : CircuitBreaker) (now : Q) :
  status cb <> FAILED -> check_recovery (A:=A) cb now = inl (cb, []).
Proof.
  intros Hs. unfold check_recovery.
  destruct (decide (status cb = FAILED)); [contradiction|reflexivity].
Qed.

(** A call that passes reaches the callable with a breaker that differs
    from the one before at most in its status. *)
Lemma check_recovery_passes (cb : CircuitBreaker) (now : Q) :
  passes cb now ->
  exists cb1 tr1,
    check_recovery (A:=A) cb now = inl (cb1, tr1) /\
    config cb1 = config cb /\
    failure_count cb1 = failure_count cb /\
    last_failure_time cb1 = last_failure_time cb /\
    (status cb1 = status cb \/ status cb = FAILED /\ status cb1 = RECOVERING).
Proof.
  intros Hp.
  destruct (decide (status cb = FAILED)) as [Hf|Hf].
  - destruct Hp as [Hp|Hp]; [contradiction|].
    exists (set_status RECOVERING cb), [SetStatus RECOVERING].
    rewrite check_recovery_recovering by assumption. simpl. auto 10.
  - exists cb, []. rewrite check_recovery_not_failed by assumption. auto 10.
Qed.

(** The breaker after a failure of the wrapped callable. *)
Lemma call_failure (cb : CircuitBreaker) (func : Callable A W R) (a : A) (w w' : W)
  (e : PyExc) :
  passes cb (time_time w) ->
  func a w = (Raise e, w') ->
  isinstance_Exception e = true ->
  let r := call time_time cb func a w in
  let n := failure_count cb + 1 in
  let s := if max_failures (config cb) <=? n then FAILED else DEGRADED in
  outcome r = Raise e /\ world r = w' /\
  state r = mkCircuitBreaker (config cb) n (time_time w') s /\
  exists tr1,
    trace r = tr1 ++ [Invoke a; SetFailureCount n; SetLastFailureTime (time_time w');
                      SetStatus s].
Proof.
  intros Hp Hf He. simpl.
  destruct (check_recovery_passes cb (time_time w) Hp)
    as (cb1 & tr1 & Hc & Hcfg & Hcnt & _ & _).
  unfold call. rewrite Hc, Hf, He. unfold on_failure. simpl.
  rewrite Hcfg, Hcnt. repeat split; eauto.
  unfold set_status, set_last_failure_time, set_failure_count. simpl.
  now rewrite Hcfg.
Qed.

(** C1 (as amended): a FAILED breaker, with a [recovery_time] that a
    double holds, refuses the call without invoking the operation as long
    as [now - last_failure_time <= recovery_time] (equality included):
    it raises [ServiceUnavailableError] and nothing changes.  Once the
    elapsed time has reached a double strictly greater than
    [recovery_time] it first moves to RECOVERING, keeping its count and
    its last failure time, and then invokes the operation; the call ends
    as the operation does, and it leaves the breaker HEALTHY with no
    failure counted if the operation returns, with one more failure if it
    raises an [Exception], and RECOVERING if it raises anything else. *)
Theorem C1_failed_breaker_recovery_time (cb : CircuitBreaker)
  (func : Callable A W R) (a : A) (w : W) :
  status cb = FAILED ->
  let rt := recovery_time (config cb) in
  let elapsed := (time_time w - last_failure_time cb)%Q in
  let r := call time_time cb func a w in
  let recovering :=
    mkCircuitBreaker (config cb) (failure_count cb) (last_failure_time cb) RECOVERING in
  (binary64 (inject_Z rt) -> (elapsed <= inject_Z rt)%Q ->
     outcome r =
       Raise (ServiceUnavailableError ("Servicio " ++ name (config cb) ++ " no disponible")) /\
     state r = cb /\ world r = w /\ trace r = []) /\
  (elapsed_beyond elapsed rt ->
     check_recovery (A:=A) cb (time_time w) = inl (recovering, [SetStatus RECOVERING]) /\
     outcome r = (func a w).1 /\ world r = (func a w).2 /\
     (exists tl, trace r = SetStatus RECOVERING :: Invoke a :: tl) /\
     state r =
       match (func a w).1 with
       | Return _ => mkCircuitBreaker (config cb) 0 (last_failure_time cb) HEALTHY
       | Raise e =>
           if isinstance_Exception e then
             mkCircuitBreaker (config cb) (failure_count cb + 1) (time_time (func a w).2)
               (if max_failures (config cb) <=? failure_count cb + 1
                then FAILED else DEGRADED)
           else recovering
       end).
Proof.
  intros Hs rt elapsed r recovering. subst rt elapsed r recovering. split.
  - intros _ H. unfold call. rewrite check_recovery_short_circuit by assumption.
    simpl. auto.
  - intros H. apply elapsed_beyond_lt in H.
    unfold call. rewrite check_recovery_recovering by assumption.
    split; [reflexivity|].
    destruct (func a w) as [[v|e] w']; simpl.
    + repeat split. eauto.
    + destruct (isinstance_Exception e); simpl; repeat split; eauto.
Qed.


(** [call] keeps the invariant of the breaker, whatever the callable does. *)
Lemma call_invariant (cb : CircuitBreaker) (func : Callable A W R) (a : A) (w : W) :
  breaker_invariant cb -> breaker_invariant (state (call time_time cb func a w)).
Proof.
  intros [Hh Hf]. unfold call, check_recovery.
  destruct (decide (status cb = FAILED)) as [Hs|Hs].
  - destruct (Qgtb _ _); [|split; assumption].
    destruct (func a w) as [[v|e] w']; simpl.
    + split; [reflexivity|discriminate].
    + destruct (isinstance_Exception e); simpl.
      * destruct (Z.leb_spec (max_failures (config cb)) (failure_count cb + 1));
          split; simpl; intros; try discriminate; lia.
      * split; discriminate.
  - destruct (func a w) as [[v|e] w']; simpl.
    + split; [reflexivity|discriminate].
    + destruct (isinstance_Exception e); simpl; [|split; assumption].
      destruct (Z.leb_spec (max_failures (config cb)) (failure_count cb + 1));
        split; simpl; intros; try discriminate; lia.
Qed.

Lemma CircuitBreaker_init_invariant (cfg : ServiceConfig) :
  breaker_invariant (CircuitBreaker_init cfg).
Proof. split; [reflexivity|discriminate]. Qed.

Lemma register_service_invariant (gd : GracefulDegradation A W R) cfg :
  registry_invariant gd -> registry_invariant (register_service gd cfg).
Proof.
  intros H n cb. unfold register_service. simpl.
  destruct (decide (name cfg = n)) as [->|Hne].
  - rewrite lookup_insert_eq. intros [= <-]. apply CircuitBreaker_init_invariant.
  - rewrite lookup_insert_ne by assumption. apply H.
Qed.

Lemma ensure_registered_invariant (gd : GracefulDegradation A W R) service_name :
  registry_invariant gd -> registry_invariant (ensure_registered gd service_name).
Proof.
  intros H. unfold ensure_registered.
  destruct (services gd !! service_name); [assumption|].
  now apply register_service_invariant.
Qed.

Lemma mark_service_unavailable_invariant (gd : GracefulDegradation A W R)
  service_name now :
  registry_invariant gd ->
  registry_invariant (mark_service_unavailable gd service_name now).
Proof.
  intros H n cb. unfold mark_service_unavailable. simpl.
  pose proof (ensure_registered_invariant gd service_name H) as H1.
  destruct (decide (service_name = n)) as [->|Hne].
  - rewrite lookup_alter_eq.
    destruct (services (ensure_registered gd n) !! n) as [cb0|] eqn:E;
      simpl; [|discriminate].
    intros [= <-]. split; simpl; [discriminate|lia].
  - rewrite lookup_alter_ne by assumption. apply H1.
Qed.

Lemma call_service_invariant (gd : GracefulDegradation A W R) service_name func a w :
  registry_invariant gd ->
  registry_invariant (state (call_service time_time gd service_name func a w)).
Proof.
  intros H. unfold call_service.
  destruct (services gd !! service_name) as [cb|] eqn:E.
  - assert (Hins : registry_invariant
              (set_services
                 (<[service_name := state (call time_time cb func a w)]> (services gd)) gd)).
    { intros n cb'. simpl.
      destruct (decide (service_name = n)) as [->|Hne].
      - rewrite lookup_insert_eq. intros [= <-].
        apply call_invariant. exact (H _ _ E).
      - rewrite lookup_insert_ne by assumption. apply H. }
    destruct (outcome (call time_time cb func a w)) as [v|e]; [exact Hins|].
    destruct (isinstance_ServiceUnavailableError e).
    + destruct (fallback_handlers gd !! service_name) as [fb|]; [|exact Hins].
      destruct (fb a _); exact Hins.
    + destruct (isinstance_Exception e); [|exact Hins].
      destruct (fallback_handlers gd !! service_name) as [fb|]; [|exact Hins].
      destruct (fallback_enabled (config cb)); [|exact Hins].
      destruct (fb a _); exact Hins.
  - destruct (func a w). exact H.
Qed.

(** C3: in every manager reachable from a new one by [register_service],
    [register_fallback], [mark_service_unavailable], [is_service_available]
    and calls (succeeding or failing) through [call_service], each breaker
    has [failure_count = 0] whenever it is HEALTHY and
    [failure_count >= max_failures] whenever it is FAILED. *)
Theorem C3_breaker_invariant_reachable (gd : GracefulDegradation A W R) :
  reachable time_time gd ->
  forall service_name cb,
    services gd !! service_name = Some cb ->
    (status cb = HEALTHY -> failure_count cb = 0) /\
    (status cb = FAILED -> failure_count cb >= max_failures (config cb)).
Proof.
  intros Hr. change (registry_invariant gd).
  induction Hr.
  - intros n cb. simpl. rewrite lookup_empty. discriminate.
  - now apply register_service_invariant.
  - exact IHHr.
  - now apply mark_service_unavailable_invariant.
  - unfold is_service_available.
    pose proof (ensure_registered_invariant gd service_name IHHr) as H1.
    destruct (services (ensure_registered gd service_name) !! service_name);
      exact H1.
  - now apply call_service_invariant.
Qed.

(** C10: when the operation handed to [call_service] itself raises
    [ServiceUnavailableError], the failure is written to the breaker and
    then the registered fallback is invoked and its result returned;
    nothing is asked of [fallback_enabled]. *)
Theorem C10_unavailable_raised_by_operation (gd : GracefulDegradation A W R)
  (service_name : string) (cb : CircuitBreaker) (func fallback : Callable A W R)
  (a : A) (w w' : W) (msg : string) :
  services gd !! service_name = Some cb ->
  fallback_handlers gd !! service_name = Some fallback ->
  passes cb (time_time w) ->
  func a w = (Raise (ServiceUnavailableError msg), w') ->
  let r := call_service time_time gd service_name func a w in
  let n := failure_count cb + 1 in
  let s := if max_failures (config cb) <=? n then FAILED else DEGRADED in
  outcome r = (fallback a w').1 /\
  world r = (fallback a w').2 /\
  services (state r) !! service_name =
    Some (mkCircuitBreaker (config cb) n (time_time w') s) /\
  exists tr1,
    trace r = tr1 ++ [Invoke a; SetFailureCount n; SetLastFailureTime (time_time w');
                      SetStatus s; InvokeFallback a].
Proof.
  intros Hcb Hfb Hp Hf r n s.
  destruct (call_failure cb func a w w' _ Hp Hf eq_refl) as (Ho & Hw & Hst & tr1 & Htr).
  subst r. unfold call_service. rewrite Hcb, Ho. simpl.
  unfold Callable in *. rewrite Hfb, Hw.
  destruct (fallback a w') as [r2 w2] eqn:E. simpl.
  rewrite lookup_insert_eq, Hst, Htr.
  repeat split. exists tr1. rewrite <- app_assoc. reflexivity.
Qed.

(** What the counting loop of [can_operate_in_degraded_mode] decides. *)
Lemma available_services_positive (fallbacks : gmap string (Callable A W R))
  (l : list (string * CircuitBreaker)) (k : nat) :
  (0 < foldl (fun (acc : nat) '(service_name, circuit_breaker) =>
                if bool_decide (status circuit_breaker ∈ [HEALTHY; DEGRADED])
                   || bool_decide (is_Some (fallbacks !! service_name))
                then S acc else acc) k l)%nat <->
  (0 < k)%nat \/
  exists service_name cb,
    (service_name, cb) ∈ l /\
    (status cb = HEALTHY \/ status cb = DEGRADED \/ is_Some (fallbacks !! service_name)).
Proof.
  revert k. induction l as [|[n cb] l IH]; intros k; simpl.
  - split; [auto|]. intros [H|(n & cb & H & _)]; [assumption|]. inversion H.
  - rewrite IH. clear IH.
    assert (Hc : bool_decide (status cb ∈ [HEALTHY; DEGRADED])
                 || bool_decide (is_Some (fallbacks !! n)) = true <->
                 status cb = HEALTHY \/ status cb = DEGRADED \/ is_Some (fallbacks !! n)).
    { rewrite orb_true_iff, !bool_decide_eq_true.
      rewrite !elem_of_cons, elem_of_nil. tauto. }
    destruct (bool_decide _ || bool_decide _) eqn:E.
    + split; [|intros _; left; lia].
      intros _. right. exists n, cb. split; [left|]. now apply Hc.
    + split.
      * intros [H|(n' & cb' & Hin & H)]; [now left|].
        right. exists n', cb'. split; [now right|assumption].
      * intros [H|(n' & cb' & Hin & H)]; [now left|].
        apply elem_of_cons in Hin as [[= -> ->]|Hin].
        -- apply Hc in H. discriminate.
        -- right. eauto.
Qed.

(** The code answers [true] exactly when the registry is empty or some
    registered service is HEALTHY or DEGRADED or has a fallback. *)
Lemma can_operate_in_degraded_mode_true (gd : GracefulDegradation A W R) :
  can_operate_in_degraded_mode gd = true <->
  services gd = ∅ \/
  exists service_name cb,
    services gd !! service_name = Some cb /\
    (status cb = HEALTHY \/ status cb = DEGRADED \/
     is_Some (fallback_handlers gd !! service_name)).
Proof.
  unfold can_operate_in_degraded_mode.
  destruct (decide (services gd = ∅)) as [He|He].
  - split; auto.
  - rewrite bool_decide_eq_true, available_services_positive. split.
    + intros [H|(n & cb & Hin & H)]; [lia|].
      right. exists n, cb. split; [|assumption].
      now apply elem_of_map_to_list in Hin.
    + intros [H|(n & cb & Hin & H)]; [contradiction|].
      right. exists n, cb. split; [|assumption].
      now apply elem_of_map_to_list.
Qed.

End BreakerProperties.

(** ** The breaker properties on the scenarios *)

Section BreakerScenarios.

Import graceful_degradation scenario.

Lemma C1_failed_breaker_recovery_time_witness :
  (let r := call clock llm_failed (succeed "ok") tt 130%Q in
   outcome r = Raise (ServiceUnavailableError "Servicio llm no disponible") /\
   state r = llm_failed /\ world r = 130%Q /\ trace r = []) /\
  (let r := call clock llm_failed (succeed "ok") tt 200%Q in
   check_recovery (A:=unit) llm_failed 200%Q =
     inl (mkCircuitBreaker llm_config 3 100 RECOVERING, [SetStatus RECOVERING]) /\
   outcome r = Return "ok"%string /\ world r = 200%Q /\
   (exists tl, trace r = SetStatus RECOVERING :: Invoke tt :: tl) /\
   state r = mkCircuitBreaker llm_config 0 100 HEALTHY) /\
  (let r := call clock llm_failed (fail example.interrupted) tt 200%Q in
   check_recovery (A:=unit) llm_failed 200%Q =
     inl (mkCircuitBreaker llm_config 3 100 RECOVERING, [SetStatus RECOVERING]) /\
   outcome r = Raise example.interrupted /\ world r = 200%Q /\
   (exists tl, trace r = SetStatus RECOVERING :: Invoke tt :: tl) /\
   state r = mkCircuitBreaker llm_config 3 100 RECOVERING).
Proof.
  split; [|split].
  - apply (C1_failed_breaker_recovery_time clock llm_failed (succeed "ok") tt 130%Q eq_refl).
    + exists 60, 0. split; [reflexivity|]. split; [lia|reflexivity].
    + unfold Qle. simpl. lia.
  - apply (C1_failed_breaker_recovery_time clock llm_failed (succeed "ok") tt 200%Q eq_refl).
    exists 100%Q. split.
    + exists 100, 0. split; [reflexivity|]. split; [lia|reflexivity].
    + split; [reflexivity|]. unfold Qle. simpl. lia.
  - apply (C1_failed_breaker_recovery_time clock llm_failed (fail example.interrupted)
             tt 200%Q eq_refl).
    exists 100%Q. split.
    + exists 100, 0. split; [reflexivity|]. split; [lia|reflexivity].
    + split; [reflexivity|]. unfold Qle. simpl. lia.
Defined.

(** C1 as stated fails on the boundary: 60 seconds after the last failure,
    with [recovery_time = 60], the elapsed time is [>= recovery_time], yet
    the breaker raises [ServiceUnavailableError], stays FAILED and does not
    invoke the operation. *)
Lemma C1_counterexample_elapsed_equals_recovery_time :
  let r := call clock llm_failed (succeed "ok") tt 160%Q in
  status llm_failed = FAILED /\
  (160 - last_failure_time llm_failed >= inject_Z (recovery_time (config llm_failed)))%Q /\
  outcome r = Raise (ServiceUnavailableError "Servicio llm no disponible") /\
  status (state r) = FAILED /\
  ~ In (Invoke tt) (trace r) /\
  ~ (exists tl, trace r = SetStatus RECOVERING :: Invoke tt :: tl).
Proof.
  simpl. repeat split.
  - unfold Qle. simpl. lia.
  - intros [].
  - intros [tl H]. discriminate H.
Qed.



Lemma C3_breaker_invariant_reachable_witness :
  (status (mkCircuitBreaker llm_config 3 5 FAILED) = HEALTHY ->
   failure_count (mkCircuitBreaker llm_config 3 5 FAILED) = 0) /\
  (status (mkCircuitBreaker llm_config 3 5 FAILED) = FAILED ->
   failure_count (mkCircuitBreaker llm_config 3 5 FAILED)
   >= max_failures (config (mkCircuitBreaker llm_config 3 5 FAILED))).
Proof.
  apply (C3_breaker_invariant_reachable clock tripped) with (service_name := "llm"%string).
  - unfold tripped. apply reach_mark_service_unavailable, reach_register_service, reach_init.
  - reflexivity.
Defined.

Lemma C10_unavailable_raised_by_operation_witness :
  let r := call_service clock with_disabled_fallback "llm"
             (fail (ServiceUnavailableError "upstream is down")) tt 10%Q in
  fallback_enabled no_fallback_config = false /\
  outcome r = Return "degraded"%string /\
  world r = 10%Q /\
  services (state r) !! "llm"%string =
    Some (mkCircuitBreaker no_fallback_config 1 10 DEGRADED) /\
  exists tr1,
    trace r = tr1 ++ [Invoke tt; SetFailureCount 1; SetLastFailureTime 10;
                      SetStatus DEGRADED; InvokeFallback tt].
Proof.
  split; [reflexivity|].
  apply (C10_unavailable_raised_by_operation clock with_disabled_fallback "llm"
           (CircuitBreaker_init no_fallback_config)
           (fail (ServiceUnavailableError "upstream is down")) (succeed "degraded")
           tt 10%Q 10%Q "upstream is down").
  - reflexivity.
  - reflexivity.
  - left. discriminate.
  - reflexivity.
Defined.

(** C4 on a registry the code can be in: the only registered service is
    RECOVERING (so it is not FAILED, and [is_service_available] calls it
    available) and has no fallback; [can_operate_in_degraded_mode] answers
    [False]. *)
Theorem C4_recovering_service_not_counted :
  reachable clock probe_interrupted /\
  services probe_interrupted !! "probe"%string =
    Some (mkCircuitBreaker probe_config 1 0 RECOVERING) /\
  fallback_handlers probe_interrupted !! "probe"%string = None /\
  (is_service_available probe_interrupted "probe").1 = true /\
  can_operate_in_degraded_mode probe_interrupted = false.
Proof.
  split.
  - unfold probe_interrupted, probe_failed.
    apply reach_call_service, reach_call_service, reach_register_service, reach_init.
  - repeat split; vm_compute; reflexivity.
Qed.

End BreakerScenarios.

(** * Properties of the error collector *)

Section CollectorProperties.

Import error_handler.

Lemma add_errors_snoc (ec : ErrorCollector) (calls : list AddError) (c : AddError) :
  add_errors ec (calls ++ [c]) = add_error (add_errors ec calls) c.
Proof. unfold add_errors. now rewrite foldl_snoc. Qed.

Lemma add_errors_max_errors (ec : ErrorCollector) (calls : list AddError) :
  max_errors (add_errors ec calls) = max_errors ec.
Proof.
  induction calls as [|c calls IH] using rev_ind; [reflexivity|].
  rewrite add_errors_snoc. exact IH.
Qed.

(** The buffer of a collector that started empty holds the records of the
    last [capacity] calls, oldest first. *)
Lemma add_errors_errors (capacity : nat) (calls : list AddError) :
  errors (add_errors (ErrorCollector_init (Z.of_nat capacity)) calls) =
  make_error_info <$> drop (length calls - capacity) calls.
Proof.
  induction calls as [|c calls IH] using rev_ind; [reflexivity|].
  rewrite add_errors_snoc. unfold add_error at 1. simpl.
  rewrite add_errors_max_errors, IH. simpl.
  rewrite !length_app, length_fmap, length_drop. simpl.
  destruct (Z.ltb_spec (Z.of_nat capacity)
              (Z.of_nat (length calls - (length calls - capacity) + 1))) as [Hlt|Hge].
  - assert (Hc : (capacity <= length calls)%nat) by lia.
    replace (length calls + 1 - capacity)%nat with (length calls - capacity + 1)%nat by lia.
    rewrite <- drop_drop.
    rewrite (drop_app_le calls [c]) by lia.
    destruct (drop (length calls - capacity) calls) as [|x l] eqn:E; simpl.
    + reflexivity.
    + rewrite drop_0, fmap_app. reflexivity.
  - assert (Hc : (length calls < capacity)%nat) by lia.
    replace (length calls + 1 - capacity)%nat with 0%nat by lia.
    replace (length calls - capacity)%nat with 0%nat by lia.
    rewrite !drop_0, fmap_app. reflexivity.
Qed.

Lemma inserted_of_type_snoc (t : string) (calls : list AddError) (c : AddError) :
  inserted_of_type t (calls ++ [c]) =
  (inserted_of_type t calls + if decide (type_name (error c) = t) then 1 else 0)%nat.
Proof.
  unfold inserted_of_type. rewrite filter_app, length_app. f_equal.
  rewrite filter_cons, filter_nil.
  destruct (decide (type_name (error c) = t)); reflexivity.
Qed.

(** The counter of a type is the number of calls that carried it, whatever
    the capacity. *)
Lemma add_errors_error_counts (capacity : Z) (calls : list AddError) (t : string) :
  default 0%nat (error_counts (add_errors (ErrorCollector_init capacity) calls) !! t) =
  inserted_of_type t calls.
Proof.
  induction calls as [|c calls IH] using rev_ind.
  - simpl. now rewrite lookup_empty.
  - rewrite add_errors_snoc, inserted_of_type_snoc. unfold add_error at 1. simpl.
    destruct (decide (type_name (error c) = t)) as [->|Hne].
    + rewrite lookup_insert_eq. simpl. now rewrite IH.
    + rewrite lookup_insert_ne by assumption. rewrite IH. lia.
Qed.

Lemma clear_errors_init (ec : ErrorCollector) :
  clear_errors ec = ErrorCollector_init (max_errors ec).
Proof. reflexivity. Qed.

(** C5: after [1000 + N] calls of [add_error] on a new collector of the
    default capacity, the buffer holds exactly 1000 records, those of the
    last 1000 calls in order (the first [N] were evicted), and the counter
    of each type is the number of calls that carried an error of that
    type. *)
Theorem C5_buffer_bounded_counters_cumulative (N : nat) (calls : list AddError) :
  length calls = (1000 + N)%nat ->
  let ec := add_errors (ErrorCollector_init default_max_errors) calls in
  length (errors ec) = 1000%nat /\
  errors ec = make_error_info <$> drop N calls /\
  forall t : string, default 0%nat (error_counts ec !! t) = inserted_of_type t calls.
Proof.
  intros Hlen ec. subst ec.
  change default_max_errors with (Z.of_nat 1000).
  rewrite add_errors_errors.
  replace (length calls - 1000)%nat with N by lia.
  repeat split.
  - rewrite length_fmap, length_drop. lia.
  - intros t. apply add_errors_error_counts.
Qed.

(** C6 (as amended): for a collector that is new, or was just cleared,
    [get_error_summary] reports as [total_errors] the number of records in
    the buffer, which is the number of errors added capped at 1000,
    together with the cumulative counter of each type and the records of
    the last ten calls. *)
Theorem C6_summary_total_is_buffer_length (ec0 : ErrorCollector)
  (calls : list AddError) :
  ec0 = ErrorCollector_init default_max_errors \/
  (exists ec, max_errors ec = default_max_errors /\ ec0 = clear_errors ec) ->
  let s := get_error_summary (add_errors ec0 calls) in
  total_errors s = Nat.min (length calls) 1000 /\
  (forall t : string,
     default 0%nat (summary_error_counts s !! t) = inserted_of_type t calls) /\
  recent_errors s = make_error_info <$> drop (length calls - 10) calls.
Proof.
  intros H s.
  assert (Hec : ec0 = ErrorCollector_init (Z.of_nat 1000)).
  { destruct H as [->|(ec & Hm & ->)]; [reflexivity|].
    rewrite clear_errors_init, Hm. reflexivity. }
  subst s ec0. unfold get_error_summary. simpl.
  rewrite add_errors_errors. repeat split.
  - rewrite length_fmap, length_drop. lia.
  - intros t. apply add_errors_error_counts.
  - rewrite length_fmap, length_drop, <- fmap_drop, drop_drop. f_equal. f_equal. lia.
Qed.

End CollectorProperties.

(** ** The collector properties on the scenarios *)

Section CollectorScenarios.

Import error_handler scenario.

Lemma C5_buffer_bounded_counters_cumulative_witness :
  let calls := replicate 1001 value_error ++ [validation_error] in
  let ec := add_errors (ErrorCollector_init default_max_errors) calls in
  length (errors ec) = 1000%nat /\
  errors ec = make_error_info <$> drop 2 calls /\
  forall t : string, default 0%nat (error_counts ec !! t) = inserted_of_type t calls.
Proof.
  apply (C5_buffer_bounded_counters_cumulative 2
           (replicate 1001 value_error ++ [validation_error])).
  vm_compute. reflexivity.
Defined.

Lemma C6_summary_total_is_buffer_length_witness :
  let calls := [value_error; validation_error; value_error] in
  let s := get_error_summary
             (add_errors (clear_errors (add_error (ErrorCollector_init default_max_errors)
                                          value_error)) calls) in
  total_errors s = Nat.min (length calls) 1000 /\
  (forall t : string,
     default 0%nat (summary_error_counts s !! t) = inserted_of_type t calls) /\
  recent_errors s = make_error_info <$> drop (length calls - 10) calls.
Proof.
  apply (C6_summary_total_is_buffer_length
           (clear_errors (add_error (ErrorCollector_init default_max_errors) value_error))
           [value_error; validation_error; value_error]).
  right. exists (add_error (ErrorCollector_init default_max_errors) value_error).
  split; reflexivity.
Defined.

(** C6 as stated fails once the buffer is full: after 1001 calls on a new
    collector the summary reports 1000 errors, not the 1001 added. *)
Lemma C6_counterexample_total_after_1001_errors :
  let calls := replicate 1001 value_error in
  let s := get_error_summary (add_errors (ErrorCollector_init default_max_errors) calls) in
  length calls = 1001%nat /\
  total_errors s = 1000%nat /\
  total_errors s <> length calls.
Proof.
  vm_compute. repeat split. discriminate.
Qed.

End CollectorScenarios.

(** * Properties of the health monitor *)

Section MonitorProperties.

Import error_handler health_monitor.
Local Open Scope float_scope.

(** The default thresholds hold the numbers of the specification, and the
    tests against them are [>=] on the values measured. *)
Lemma default_thresholds_at_least (x : float) :
  (geb x 90 = true <-> at_least x 90%Q) /\
  (geb x 95 = true <-> at_least x 95%Q) /\
  (geb x 15 = true <-> at_least x 15%Q) /\
  (geb x 10 = true <-> at_least x 10%Q) /\
  (geb x 70 = true <-> at_least x 70%Q) /\
  (geb x 80 = true <-> at_least x 80%Q) /\
  (geb x 85 = true <-> at_least x 85%Q) /\
  (geb x 5 = true <-> at_least x 5%Q).
Proof.
  repeat split; (eapply geb_at_least; [reflexivity|vm_compute; reflexivity]).
Qed.

(** C7: with the default thresholds the status is "critical" exactly when
    cpu >= 90 or memory >= 95 or disk >= 95 or error_rate >= 15 or
    avg_response_time >= 10; failing that, "warning" exactly when
    cpu >= 70 or memory >= 80 or disk >= 85 or error_rate >= 5 or
    avg_response_time >= 5; and "healthy" otherwise.  Here [>=] is the
    order of the numbers that the measured doubles hold ([at_least]): a
    NaN is above nothing.  The sample cpu=95, mem=50, disk=10,
    error_rate=0, avg_response_time=0.1 is "critical". *)
Theorem C7_health_status_by_thresholds
  (cpu memory disk error_rate avg_response_time : float) :
  let status :=
    _determine_health_status default_thresholds cpu memory disk error_rate
      avg_response_time in
  let critical :=
    at_least cpu 90%Q \/ at_least memory 95%Q \/ at_least disk 95%Q \/
    at_least error_rate 15%Q \/ at_least avg_response_time 10%Q in
  let warning :=
    at_least cpu 70%Q \/ at_least memory 80%Q \/ at_least disk 85%Q \/
    at_least error_rate 5%Q \/ at_least avg_response_time 5%Q in
  (status = "critical"%string <-> critical) /\
  (status = "warning"%string <-> ~ critical /\ warning) /\
  (status = "healthy"%string <-> ~ critical /\ ~ warning) /\
  _determine_health_status default_thresholds 95 50 10 0 0x1.999999999999ap-4
  = "critical"%string.
Proof.
  cbv zeta.
  destruct (default_thresholds_at_least cpu) as (C90 & _ & _ & _ & C70 & _).
  destruct (default_thresholds_at_least memory) as (_ & M95 & _ & _ & _ & M80 & _).
  destruct (default_thresholds_at_least disk) as (_ & D95 & _ & _ & _ & _ & D85 & _).
  destruct (default_thresholds_at_least error_rate)
    as (_ & _ & E15 & _ & _ & _ & _ & E5).
  destruct (default_thresholds_at_least avg_response_time)
    as (_ & _ & _ & R10 & _ & _ & _ & R5).
  rewrite <- C90, <- M95, <- D95, <- E15, <- R10, <- C70, <- M80, <- D85, <- E5, <- R5.
  unfold _determine_health_status. simpl.
  destruct (geb cpu 90), (geb memory 95), (geb disk 95), (geb error_rate 15),
    (geb avg_response_time 10); simpl;
    try (repeat split; try discriminate; try reflexivity; intuition discriminate).
  destruct (geb cpu 70), (geb memory 80), (geb disk 85), (geb error_rate 5),
    (geb avg_response_time 5); simpl;
    repeat split; try discriminate; try reflexivity; intuition discriminate.
Qed.

(** On the thresholds themselves: a metric equal to its critical
    threshold is "critical", one equal to its warning threshold is
    "warning", and one just below the warning threshold, with the others
    at rest, is "healthy". *)
Lemma _determine_health_status_on_the_thresholds :
  _determine_health_status default_thresholds 90 0 0 0 0 = "critical"%string /\
  _determine_health_status default_thresholds 0 0 0 0 10 = "critical"%string /\
  _determine_health_status default_thresholds 0x1.67fffffffffffp+6 0 0 0 0
  = "warning"%string /\
  _determine_health_status default_thresholds 70 0 0 0 0 = "warning"%string /\
  _determine_health_status default_thresholds 0 0 85 0 0 = "warning"%string /\
  _determine_health_status default_thresholds 0x1.17fffffffffffp+6 0 0 0 0
  = "healthy"%string /\
  _determine_health_status default_thresholds nan nan nan nan nan = "healthy"%string.
Proof.
  repeat split; vm_compute; reflexivity.
Qed.

(** A reading in which a source raises makes the body of the [try] raise
    that exception. *)
Lemma collect_metrics_try_raises (hm : HealthMonitor) (src : Sources) (e : PyExc) :
  first_raised src = Some e -> collect_metrics_try hm src = Raise e.
Proof.
  unfold first_raised, collect_metrics_try. intros H.
  destruct (src_cpu_percent src) as [cpu|e1]; simpl; [|congruence].
  destruct (src_virtual_memory src) as [memory|e2]; simpl; [|congruence].
  destruct (src_disk_usage src) as [disk|e3]; simpl; [|congruence].
  destruct (src_net_connections src) as [connections|e4]; simpl; congruence.
Qed.

Lemma float_100_is_not_0 : 100 <> 0.
Proof.
  intros H. apply (f_equal (fun x => PrimFloat.eqb x 0)) in H.
  vm_compute in H. discriminate H.
Qed.

(** C8 (as amended): when a metrics source raises an [Exception],
    [collect_metrics] returns a sample whose status is "critical", whose
    [error_rate] is 100.0 and whose other metric fields are zero, and the
    monitoring loop appends that sample and goes on with the next tick. *)
Theorem C8_failed_collection_gives_critical_sample (hm : HealthMonitor)
  (src : Sources) (e : PyExc) :
  first_raised src = Some e ->
  isinstance_Exception e = true ->
  exists metrics,
    collect_metrics hm src = Return metrics /\
    status metrics = "critical"%string /\
    error_rate metrics = 100 /\
    cpu_percent metrics = 0 /\
    memory_percent metrics = 0 /\
    memory_available_mb metrics = 0 /\
    disk_usage_percent metrics = 0 /\
    uptime_seconds metrics = 0 /\
    active_connections metrics = 0%nat /\
    api_response_time_avg metrics = 0 /\
    forall (report : Outcome unit) (rest : list Tick),
      (forall e', report = Raise e' -> isinstance_Exception e' = true) ->
      _monitoring_loop hm (mkTick src report :: rest) =
      _monitoring_loop (append_history hm metrics) rest.
Proof.
  intros Hsrc He. exists (failure_metrics (src_now src)).
  assert (Hc : collect_metrics hm src = Return (failure_metrics (src_now src))).
  { unfold collect_metrics. rewrite (collect_metrics_try_raises hm src e Hsrc).
    now rewrite He. }
  split; [exact Hc|]. repeat (split; [reflexivity|]).
  intros report rest Hreport. simpl. unfold monitoring_iteration. simpl.
  rewrite Hc. destruct report as [[]|e']; [reflexivity|].
  now rewrite (Hreport e' eq_refl).
Qed.

Lemma dict_get_set {V : Type} (k : string) (v : V) (d : list (string * V)) :
  dict_get k (dict_set k v d) = Some v.
Proof.
  induction d as [|[k' v'] d IH]; simpl.
  - destruct (decide (k = k)); [reflexivity|contradiction].
  - destruct (decide (k' = k)) as [->|Hne]; simpl.
    + destruct (decide (k = k)); [reflexivity|contradiction].
    + destruct (decide (k' = k)); [contradiction|exact IH].
Qed.



End MonitorProperties.

(** ** The monitor properties on the scenarios *)

Section MonitorScenarios.

Import error_handler health_monitor scenario.
Local Open Scope float_scope.

Lemma C8_failed_collection_gives_critical_sample_witness :
  exists metrics,
    collect_metrics new_monitor disk_unreadable = Return metrics /\
    status metrics = "critical"%string /\
    error_rate metrics = 100 /\
    cpu_percent metrics = 0 /\
    memory_percent metrics = 0 /\
    memory_available_mb metrics = 0 /\
    disk_usage_percent metrics = 0 /\
    uptime_seconds metrics = 0 /\
    active_connections metrics = 0%nat /\
    api_response_time_avg metrics = 0 /\
    forall (report : Outcome unit) (rest : list Tick),
      (forall e', report = Raise e' -> isinstance_Exception e' = true) ->
      _monitoring_loop new_monitor (mkTick disk_unreadable report :: rest) =
      _monitoring_loop (append_history new_monitor metrics) rest.
Proof.
  apply (C8_failed_collection_gives_critical_sample new_monitor disk_unreadable
           (Exception "FileNotFoundError" "no such drive")).
  - reflexivity.
  - reflexivity.
Defined.


(** C8 as stated fails on [error_rate]: the sample returned when the disk
    cannot be read has [error_rate = 100.0], which is not zero. *)
Lemma C8_counterexample_error_rate_not_zeroed :
  first_raised disk_unreadable = Some (Exception "FileNotFoundError" "no such drive") /\
  collect_metrics new_monitor disk_unreadable =
    Return (failure_metrics "2024-01-01T00:00:30") /\
  error_rate (failure_metrics "2024-01-01T00:00:30") = 100 /\
  error_rate (failure_metrics "2024-01-01T00:00:30") <> 0.
Proof.
  repeat split. exact float_100_is_not_0.
Qed.

End MonitorScenarios.

(** * Further properties of the circuit breaker and its manager *)

Section BreakerRuns.

Import graceful_degradation.
Context {A W R : Type}.
Variable time_time : W -> Q.

Lemma invocations_app (tr1 tr2 : list (Event A)) :
  invocations (tr1 ++ tr2) = (invocations tr1 + invocations tr2)%nat.
Proof.
  induction tr1 as [|ev tr1 IH]; [reflexivity|].
  destruct ev; simpl; rewrite IH; reflexivity.
Qed.

Lemma call_each_snoc (cb : CircuitBreaker) (calls : list (Callable A W R * A * W))
  (func : Callable A W R) (a : A) (w : W) :
  call_each time_time cb (calls ++ [(func, a, w)]) =
  (state (call time_time (call_each time_time cb calls).1 func a w),
   (call_each time_time cb calls).2
   ++ trace (call time_time (call_each time_time cb calls).1 func a w)).
Proof.
  unfold call_each. rewrite foldl_snoc.
  destruct (foldl _ _ calls) as [cb' tr]. reflexivity.
Qed.

(** A failure of the operation on a breaker that is not FAILED. *)
Lemma call_failure_open (cb : CircuitBreaker) (func : Callable A W R) (a : A)
  (w w' : W) (e : PyExc) :
  status cb <> FAILED ->
  func a w = (Raise e, w') ->
  isinstance_Exception e = true ->
  let n := failure_count cb + 1 in
  let s := if max_failures (config cb) <=? n then FAILED else DEGRADED in
  call time_time cb func a w =
  mkResult (Raise e) (mkCircuitBreaker (config cb) n (time_time w') s) w'
    [Invoke a; SetFailureCount n; SetLastFailureTime (time_time w'); SetStatus s].
Proof.
  intros Hs Hf He. unfold call.
  rewrite check_recovery_not_failed by assumption.
  rewrite Hf, He. reflexivity.
Qed.

(** The breaker after a run of failures that stays within the threshold. *)
Lemma call_each_failures (cfg : ServiceConfig)
  (calls : list (Callable A W R * A * W)) :
  Forall fails calls ->
  Z.of_nat (length calls) <= max_failures cfg ->
  let cb := (call_each time_time (CircuitBreaker_init cfg) calls).1 in
  let tr := (call_each time_time (CircuitBreaker_init cfg) calls).2 in
  config cb = cfg /\
  failure_count cb = Z.of_nat (length calls) /\
  invocations tr = length calls /\
  status cb = (if decide (calls = []) then HEALTHY
               else if max_failures cfg <=? Z.of_nat (length calls) then FAILED
                    else DEGRADED).
Proof.
  induction calls as [|[[func a] w] calls IH] using rev_ind; intros Hall Hlen.
  - simpl. auto.
  - apply Forall_app in Hall as [Hall Hc].
    rewrite length_app in Hlen. simpl in Hlen.
    destruct (IH Hall ltac:(lia)) as (Hcfg & Hcnt & Hinv & Hst). clear IH.
    apply (proj1 (Forall_singleton _ _)) in Hc. unfold fails in Hc. simpl in Hc.
    destruct Hc as (e & w' & Hf & He).
    rewrite call_each_snoc.
    set (cb0 := (call_each time_time (CircuitBreaker_init cfg) calls).1) in *.
    set (tr0 := (call_each time_time (CircuitBreaker_init cfg) calls).2) in *.
    assert (Hopen : status cb0 <> FAILED).
    { rewrite Hst. destruct (decide (calls = [])); [discriminate|].
      destruct (Z.leb_spec (max_failures cfg) (Z.of_nat (length calls)));
        [lia|discriminate]. }
    rewrite (call_failure_open cb0 func a w w' e Hopen Hf He). simpl.
    rewrite Hcfg, Hcnt, invocations_app, Hinv, length_app. simpl.
    split; [reflexivity|]. split; [lia|]. split; [reflexivity|].
    destruct (decide (calls ++ [(func, a, w)] = [])) as [Hnil|_].
    { destruct calls; discriminate Hnil. }
    replace (Z.of_nat (length calls) + 1) with (Z.of_nat (length calls + 1)) by lia.
    reflexivity.
Qed.

(** X1: a call made while the breaker is not FAILED, or when the time
    since the last failure has reached a double above [recovery_time],
    and whose operation returns [v], returns [v], sets [failure_count] to
    0 and the status to HEALTHY, whatever the breaker had accumulated; it
    invokes the operation once and leaves the configuration and
    [last_failure_time] alone. *)
Theorem X1_success_resets_breaker (cb : CircuitBreaker) (func : Callable A W R)
  (a : A) (w w' : W) (v : R) :
  let_through cb (time_time w) ->
  func a w = (Return v, w') ->
  let r := call time_time cb func a w in
  outcome r = Return v /\ world r = w' /\
  state r = mkCircuitBreaker (config cb) 0 (last_failure_time cb) HEALTHY /\
  invocations (trace r) = 1%nat.
Proof.
  intros Hp Hf r. subst r. apply let_through_passes in Hp.
  destruct (check_recovery_passes (A:=A) cb (time_time w) Hp)
    as (cb1 & tr1 & Hc & Hcfg & _ & Hlft & _).
  unfold call. rewrite Hc, Hf. simpl.
  unfold set_status, set_failure_count. simpl. rewrite Hcfg, Hlft.
  repeat split.
  unfold check_recovery in Hc.
  destruct (decide (status cb = FAILED)); [destruct (Qgtb _ _)|];
    inversion Hc; subst; reflexivity.
Qed.

(** X2: on a new breaker with [max_failures >= 1], a run of at most
    [max_failures] calls whose operations all raise invokes every
    operation and counts every failure; the breaker is DEGRADED while the
    count is below [max_failures] and FAILED when it reaches it, and from
    then on a call made within [recovery_time] of the last failure raises
    [ServiceUnavailableError] without invoking its operation. *)
Theorem X2_consecutive_failures_trip_breaker (cfg : ServiceConfig)
  (calls : list (Callable A W R * A * W)) :
  calls <> [] ->
  Forall fails calls ->
  Z.of_nat (length calls) <= max_failures cfg ->
  let cb := (call_each time_time (CircuitBreaker_init cfg) calls).1 in
  let tr := (call_each time_time (CircuitBreaker_init cfg) calls).2 in
  failure_count cb = Z.of_nat (length calls) /\
  invocations tr = length calls /\
  (Z.of_nat (length calls) < max_failures cfg -> status cb = DEGRADED) /\
  (Z.of_nat (length calls) = max_failures cfg ->
   status cb = FAILED /\
   forall (func : Callable A W R) (a : A) (w : W),
     (time_time w - last_failure_time cb <= inject_Z (recovery_time cfg))%Q ->
     outcome (call time_time cb func a w) =
       Raise (ServiceUnavailableError ("Servicio " ++ name cfg ++ " no disponible")) /\
     state (call time_time cb func a w) = cb /\
     trace (call time_time cb func a w) = []).
Proof.
  intros Hne Hall Hlen cb tr.
  destruct (call_each_failures cfg calls Hall Hlen) as (Hcfg & Hcnt & Hinv & Hst).
  fold cb in Hcfg, Hcnt, Hst. fold tr in Hinv.
  destruct (decide (calls = [])); [contradiction|].
  split; [assumption|]. split; [assumption|]. split.
  - intros Hlt. rewrite Hst.
    destruct (Z.leb_spec (max_failures cfg) (Z.of_nat (length calls)));
      [lia|reflexivity].
  - intros Heq.
    assert (Hfailed : status cb = FAILED).
    { rewrite Hst, Heq. now rewrite Z.leb_refl. }
    split; [exact Hfailed|]. intros func a w Hel.
    unfold call. rewrite check_recovery_short_circuit; rewrite ?Hcfg; try assumption.
    simpl. auto.
Qed.

End BreakerRuns.

Section ManagerProperties.

Import graceful_degradation.
Context {A W R : Type}.
Variable time_time : W -> Q.
Variables anthropic_literal slack_literal code_analysis_literal
  code_generation_literal : R.

Local Abbreviation step :=
  (manager_step time_time anthropic_literal slack_literal code_analysis_literal
     code_generation_literal).

(** Case analysis on the fallback registered under a name. *)
Ltac case_fallback gd service_name fb Efb :=
  unfold Callable in *;
  match goal with
  | |- context [@lookup ?K ?V ?M ?I service_name (fallback_handlers gd)] =>
      destruct (@lookup K V M I service_name (fallback_handlers gd)) as [fb|] eqn:Efb
  end.

Lemma set_services_same (gd : GracefulDegradation A W R) (service_name : string)
  (cb : CircuitBreaker) :
  services gd !! service_name = Some cb ->
  set_services (<[service_name := cb]> (services gd)) gd = gd.
Proof.
  intros H. destruct gd as [m f i]. unfold set_services. simpl in *.
  now rewrite insert_id.
Qed.

(** X3: while a registered breaker is FAILED and at most [recovery_time]
    has passed since its last failure, [call_service] does not invoke the
    operation and leaves the manager as it was; it returns what the
    registered fallback returns, and raises [ServiceUnavailableError] when
    no fallback is registered. *)
Theorem X3_open_breaker_answers_with_fallback (gd : GracefulDegradation A W R)
  (service_name : string) (cb : CircuitBreaker) (func : Callable A W R) (a : A) (w : W) :
  services gd !! service_name = Some cb ->
  status cb = FAILED ->
  (time_time w - last_failure_time cb <= inject_Z (recovery_time (config cb)))%Q ->
  let r := call_service time_time gd service_name func a w in
  state r = gd /\
  invocations (trace r) = 0%nat /\
  (forall fallback, fallback_handlers gd !! service_name = Some fallback ->
     outcome r = (fallback a w).1 /\ world r = (fallback a w).2) /\
  (fallback_handlers gd !! service_name = None ->
     outcome r =
       Raise (ServiceUnavailableError ("Servicio " ++ name (config cb) ++ " no disponible")) /\
     world r = w).
Proof.
  intros Hcb Hs Hel r. subst r. unfold call_service, call.
  rewrite Hcb, check_recovery_short_circuit by assumption. simpl.
  rewrite (set_services_same gd service_name cb Hcb).
  case_fallback gd service_name fb Efb.
  - destruct (fb a w) as [r2 w2] eqn:E. simpl.
    split; [reflexivity|]. split; [reflexivity|]. split.
    + intros fallback [= <-]. now rewrite E.
    + intros H. discriminate H.
  - simpl. split; [reflexivity|]. split; [reflexivity|]. split.
    + intros fallback H. discriminate H.
    + auto.
Qed.

(** X5: when the operation of a registered service raises an exception
    other than [ServiceUnavailableError], the failure is recorded in the
    breaker, and the fallback answers only if one is registered and the
    configuration has [fallback_enabled]; otherwise the exception of the
    operation is raised again. *)
Theorem X5_operation_error_needs_enabled_fallback (gd : GracefulDegradation A W R)
  (service_name : string) (cb : CircuitBreaker) (func : Callable A W R)
  (a : A) (w w' : W) (e : PyExc) :
  services gd !! service_name = Some cb ->
  passes cb (time_time w) ->
  func a w = (Raise e, w') ->
  isinstance_Exception e = true ->
  isinstance_ServiceUnavailableError e = false ->
  let r := call_service time_time gd service_name func a w in
  let n := failure_count cb + 1 in
  let s := if max_failures (config cb) <=? n then FAILED else DEGRADED in
  services (state r) !! service_name =
    Some (mkCircuitBreaker (config cb) n (time_time w') s) /\
  (forall fallback,
     fallback_handlers gd !! service_name = Some fallback ->
     fallback_enabled (config cb) = true ->
     outcome r = (fallback a w').1 /\ world r = (fallback a w').2) /\
  (fallback_handlers gd !! service_name = None \/ fallback_enabled (config cb) = false ->
     outcome r = Raise e /\ world r = w').
Proof.
  intros Hcb Hp Hf He Hne r n s.
  destruct (call_failure time_time cb func a w w' e Hp Hf He) as (Ho & Hw & Hst & _).
  subst r. unfold call_service. rewrite Hcb, Ho, Hne, He, Hw, Hst.
  case_fallback gd service_name fb Efb.
  - destruct (fallback_enabled (config cb)) eqn:Een.
    + destruct (fb a w') as [r2 w2] eqn:E. simpl. rewrite lookup_insert_eq.
      split; [reflexivity|]. split.
      * intros fallback [= <-] _. now rewrite E.
      * intros [H|H]; discriminate H.
    + simpl. rewrite lookup_insert_eq. split; [reflexivity|]. split.
      * intros fallback _ H. discriminate H.
      * auto.
  - simpl. rewrite lookup_insert_eq. split; [reflexivity|]. split.
    + intros fallback H. discriminate H.
    + auto.
Qed.

Lemma ensure_registered_lookup (gd : GracefulDegradation A W R) (service_name : string) :
  services (ensure_registered gd service_name) !! service_name =
  Some (default (CircuitBreaker_init (default_config service_name))
          (services gd !! service_name)).
Proof.
  unfold ensure_registered.
  destruct (services gd !! service_name) as [cb|] eqn:E; simpl.
  - exact E.
  - apply lookup_insert_eq.
Qed.

Lemma ensure_registered_other (gd : GracefulDegradation A W R) (service_name other : string) :
  other <> service_name ->
  services (ensure_registered gd service_name) !! other = services gd !! other.
Proof.
  intros Hne. unfold ensure_registered.
  destruct (services gd !! service_name); [reflexivity|].
  simpl. apply lookup_insert_ne. congruence.
Qed.

Lemma ensure_registered_fallbacks (gd : GracefulDegradation A W R) (service_name : string) :
  fallback_handlers (ensure_registered gd service_name) = fallback_handlers gd /\
  initialized (ensure_registered gd service_name) = initialized gd.
Proof.
  unfold ensure_registered. destruct (services gd !! service_name); auto.
Qed.

(** X6: [mark_service_unavailable] leaves the named service FAILED with
    [failure_count = max_failures] and [last_failure_time = now], under
    the configuration it had (the default one if it was not registered);
    [is_service_available] then answers [False], and until more than
    [recovery_time] has passed [call_service] does not invoke the
    operation.  Other services and the fallbacks are untouched. *)
Theorem X6_marked_service_is_unavailable (gd : GracefulDegradation A W R)
  (service_name : string) (now : Q) :
  let gd' := mark_service_unavailable gd service_name now in
  let cfg :=
    match services gd !! service_name with
    | Some cb => config cb
    | None => default_config service_name
    end in
  services gd' !! service_name = Some (mkCircuitBreaker cfg (max_failures cfg) now FAILED) /\
  is_service_available gd' service_name = (false, gd') /\
  (forall other, other <> service_name -> services gd' !! other = services gd !! other) /\
  fallback_handlers gd' = fallback_handlers gd /\
  forall (func : Callable A W R) (a : A) (w : W),
    (time_time w - now <= inject_Z (recovery_time cfg))%Q ->
    invocations (trace (call_service time_time gd' service_name func a w)) = 0%nat.
Proof.
  intros gd' cfg.
  assert (Hcb : services gd' !! service_name =
                Some (mkCircuitBreaker cfg (max_failures cfg) now FAILED)).
  { subst gd' cfg. unfold mark_service_unavailable. simpl.
    rewrite lookup_alter_eq, ensure_registered_lookup.
    destruct (services gd !! service_name); reflexivity. }
  split; [exact Hcb|]. split; [|split; [|split]].
  - unfold is_service_available.
    assert (He : ensure_registered gd' service_name = gd').
    { unfold ensure_registered. now rewrite Hcb. }
    rewrite He, Hcb. reflexivity.
  - intros other Hne. subst gd'. unfold mark_service_unavailable. simpl.
    rewrite lookup_alter_ne by congruence. now apply ensure_registered_other.
  - subst gd'. unfold mark_service_unavailable. simpl.
    apply ensure_registered_fallbacks.
  - intros func a w Hel. unfold call_service, call. rewrite Hcb.
    rewrite check_recovery_short_circuit by (simpl; auto). simpl.
    match goal with
    | |- context [match ?x with Some _ => _ | None => _ end] => destruct x as [fb|]
    end; [|reflexivity].
    destruct (fb a w). reflexivity.
Qed.

(** X7: for a name that is not registered, [get_service_status] answers
    "unknown"; [is_service_available] answers [True] and registers the
    name with the default configuration, after which [get_service_status]
    reports it "healthy" with no failure and [max_failures = 3]; no other
    service changes. *)
Theorem X7_unknown_service_is_registered_by_query (gd : GracefulDegradation A W R)
  (service_name : string) :
  services gd !! service_name = None ->
  let gd' := (is_service_available gd service_name).2 in
  get_service_status gd service_name = NotRegistered "unknown" "Servicio no registrado" /\
  (is_service_available gd service_name).1 = true /\
  services gd' !! service_name = Some (CircuitBreaker_init (default_config service_name)) /\
  get_service_status gd' service_name =
    Registered service_name "healthy" 0 3 0
      (bool_decide (is_Some (fallback_handlers gd !! service_name))) /\
  (forall other, other <> service_name -> services gd' !! other = services gd !! other).
Proof.
  intros Hnone gd'.
  assert (Hreg : ensure_registered gd service_name =
                 register_service gd (default_config service_name)).
  { unfold ensure_registered. now rewrite Hnone. }
  assert (Hgd' : gd' = register_service gd (default_config service_name)).
  { subst gd'. unfold is_service_available. rewrite Hreg. simpl.
    now rewrite lookup_insert_eq. }
  split; [unfold get_service_status; now rewrite Hnone|].
  split; [unfold is_service_available; rewrite Hreg; simpl;
          now rewrite lookup_insert_eq|].
  rewrite Hgd'. split; [simpl; apply lookup_insert_eq|]. split.
  - unfold get_service_status. simpl. now rewrite lookup_insert_eq.
  - intros other Hne. simpl. apply lookup_insert_ne. congruence.
Qed.

(** X8: [register_service] puts a new breaker under the name of the
    configuration, HEALTHY and with no failure counted, whatever the
    breaker registered before had accumulated; a fallback registered
    under that name stays, and nothing else changes. *)
Theorem X8_register_service_starts_afresh (gd : GracefulDegradation A W R)
  (cfg : ServiceConfig) :
  let gd' := register_service gd cfg in
  get_service_status gd' (name cfg) =
    Registered (name cfg) "healthy" 0 (max_failures cfg) 0
      (bool_decide (is_Some (fallback_handlers gd !! name cfg))) /\
  (is_service_available gd' (name cfg)).1 = true /\
  (forall other, other <> name cfg -> services gd' !! other = services gd !! other) /\
  fallback_handlers gd' = fallback_handlers gd.
Proof.
  intros gd'. subst gd'. split; [|split; [|split]].
  - unfold get_service_status, register_service. simpl. now rewrite lookup_insert_eq.
  - unfold is_service_available, ensure_registered, register_service. simpl.
    rewrite lookup_insert_eq. simpl. now rewrite lookup_insert_eq.
  - intros other Hne. simpl. apply lookup_insert_ne. congruence.
  - reflexivity.
Qed.

(** X9: [can_operate_in_degraded_mode] answers [True] exactly when no
    service is registered, or some registered service is HEALTHY or
    DEGRADED, or some registered service has a fallback. *)
Theorem X9_can_operate_in_degraded_mode_characterised (gd : GracefulDegradation A W R) :
  can_operate_in_degraded_mode gd = true <->
  services gd = ∅ \/
  exists service_name cb,
    services gd !! service_name = Some cb /\
    (status cb = HEALTHY \/ status cb = DEGRADED \/
     is_Some (fallback_handlers gd !! service_name)).
Proof. apply can_operate_in_degraded_mode_true. Qed.

(** X13: for a registered service, [is_service_available] answers [False]
    exactly when [get_service_status] reports the status "failed", and it
    does not change the manager. *)
Theorem X13_unavailable_iff_reported_failed (gd : GracefulDegradation A W R)
  (service_name : string) (cb : CircuitBreaker) :
  services gd !! service_name = Some cb ->
  is_service_available gd service_name =
    (negb (String.eqb
             (match get_service_status gd service_name with
              | Registered _ s _ _ _ _ => s
              | NotRegistered s _ => s
              end) "failed"), gd).
Proof.
  intros Hcb. unfold is_service_available, get_service_status, ensure_registered.
  rewrite Hcb. simpl. rewrite Hcb. destruct (status cb); reflexivity.
Qed.

Lemma is_Some_insert {V : Type} (m : gmap string V) (i j : string) (x : V) :
  is_Some (m !! j) -> is_Some (<[i := x]> m !! j).
Proof.
  intros H. destruct (decide (i = j)) as [->|Hne].
  - rewrite lookup_insert_eq. eauto.
  - now rewrite lookup_insert_ne.
Qed.

(** The manager after [call_service]: at most the breaker of the service
    has changed. *)
Lemma call_service_state (gd : GracefulDegradation A W R) (service_name : string)
  (func : Callable A W R) (a : A) (w : W) :
  state (call_service time_time gd service_name func a w) =
  match services gd !! service_name with
  | Some cb =>
      set_services (<[service_name := state (call time_time cb func a w)]> (services gd)) gd
  | None => gd
  end.
Proof.
  unfold call_service.
  destruct (services gd !! service_name) as [cb|]; [|destruct (func a w); reflexivity].
  destruct (outcome (call time_time cb func a w)) as [v|e]; [reflexivity|].
  destruct (isinstance_ServiceUnavailableError e).
  - case_fallback gd service_name fb Efb; [|reflexivity].
    destruct (fb a _); reflexivity.
  - destruct (isinstance_Exception e); [|reflexivity].
    case_fallback gd service_name fb Efb; [|reflexivity].
    destruct (fallback_enabled (config cb)); [|reflexivity].
    destruct (fb a _); reflexivity.
Qed.

Lemma with_graceful_degradation_state (gd : GracefulDegradation A W R)
  (service_name : string) (inline : option (Callable A W R))
  (func : Callable A W R) (a : A) (w : W) :
  state (with_graceful_degradation time_time service_name inline func gd a w) =
  state (call_service time_time gd service_name func a w).
Proof.
  unfold with_graceful_degradation.
  destruct (outcome (call_service time_time gd service_name func a w)) as [v|e];
    [reflexivity|].
  destruct (isinstance_Exception e); [|reflexivity].
  destruct inline as [f|]; [|reflexivity].
  destruct (f a _); reflexivity.
Qed.

(** No operation removes a service or a fallback, or clears the flag
    [initialized]. *)
Lemma manager_step_keeps (gd gd' : GracefulDegradation A W R) :
  step gd gd' ->
  (forall n, is_Some (services gd !! n) -> is_Some (services gd' !! n)) /\
  (forall n, is_Some (fallback_handlers gd !! n) -> is_Some (fallback_handlers gd' !! n)) /\
  (initialized gd = true -> initialized gd' = true).
Proof.
  assert (Hens : forall (g : GracefulDegradation A W R) sn n,
            is_Some (services g !! n) ->
            is_Some (services (ensure_registered g sn) !! n)).
  { intros g sn n H. unfold ensure_registered.
    destruct (services g !! sn); [assumption|]. simpl. now apply is_Some_insert. }
  assert (Hcall : forall (g : GracefulDegradation A W R) sn func a w,
            (forall n, is_Some (services g !! n) ->
               is_Some (services (state (call_service time_time g sn func a w)) !! n)) /\
            fallback_handlers (state (call_service time_time g sn func a w))
            = fallback_handlers g /\
            initialized (state (call_service time_time g sn func a w)) = initialized g).
  { intros g sn func a w. rewrite call_service_state.
    destruct (services g !! sn); simpl; [|auto].
    split; [|auto]. intros n H. now apply is_Some_insert. }
  intros Hstep. destruct Hstep.
  - simpl. split; [|auto]. intros n H. now apply is_Some_insert.
  - simpl. split; [auto|]. split; [|auto]. intros n H.
    unfold Callable in *. now apply is_Some_insert.
  - unfold mark_service_unavailable. simpl.
    destruct (ensure_registered_fallbacks gd service_name) as [Hf Hi].
    rewrite Hf, Hi. split; [|auto]. intros n H.
    destruct (decide (service_name = n)) as [->|Hne].
    + rewrite lookup_alter_eq. apply fmap_is_Some. now apply Hens.
    + rewrite lookup_alter_ne by assumption. now apply Hens.
  - unfold is_service_available.
    destruct (ensure_registered_fallbacks gd service_name) as [Hf Hi].
    destruct (services (ensure_registered gd service_name) !! service_name);
      simpl; rewrite Hf, Hi; auto.
  - destruct (Hcall gd service_name func a w) as (H1 & H2 & H3).
    rewrite H2, H3. auto.
  - rewrite with_graceful_degradation_state.
    destruct (Hcall gd service_name func a w) as (H1 & H2 & H3).
    rewrite H2, H3. auto.
  - unfold initialize. destruct (initialized gd) eqn:Ei; [auto|].
    unfold setup_default_services, register_service, register_fallback. simpl.
    unfold Callable in *.
    split; [|split]; [| |auto]; intros n H; repeat apply is_Some_insert; exact H.
Qed.

Lemma manager_run_keeps (gd gd' : GracefulDegradation A W R) :
  rtc step gd gd' ->
  (forall n, is_Some (services gd !! n) -> is_Some (services gd' !! n)) /\
  (forall n, is_Some (fallback_handlers gd !! n) -> is_Some (fallback_handlers gd' !! n)) /\
  (initialized gd = true -> initialized gd' = true).
Proof.
  induction 1 as [gd|gd gd1 gd2 Hstep _ IH]; [auto|].
  destruct (manager_step_keeps _ _ Hstep) as (H1 & H2 & H3).
  destruct IH as (I1 & I2 & I3). auto 7.
Qed.

Lemma covered_service_can_operate (gd : GracefulDegradation A W R) :
  has_covered_service gd -> can_operate_in_degraded_mode gd = true.
Proof.
  intros (n & [cb Hcb] & Hfb). apply can_operate_in_degraded_mode_true.
  right. exists n, cb. auto.
Qed.

(** X10: no operation on the manager removes a registered service or a
    registered fallback; so once some registered service has a fallback,
    [can_operate_in_degraded_mode] answers [True] after every further run
    of operations, whatever happens to the breakers. *)
Theorem X10_covered_service_keeps_degraded_mode (gd gd' : GracefulDegradation A W R) :
  rtc step gd gd' ->
  has_covered_service gd ->
  (forall n, is_Some (services gd !! n) -> is_Some (services gd' !! n)) /\
  (forall n, is_Some (fallback_handlers gd !! n) -> is_Some (fallback_handlers gd' !! n)) /\
  can_operate_in_degraded_mode gd' = true.
Proof.
  intros Hrun (n & Hs & Hf).
  destruct (manager_run_keeps gd gd' Hrun) as (H1 & H2 & _).
  split; [exact H1|]. split; [exact H2|].
  apply covered_service_can_operate. exists n. auto.
Qed.

(** X11: on a manager that is not yet initialized, [initialize] registers
    "anthropic", "slack", "code_analysis" and "code_generation" with new
    breakers (thresholds 3, 5, 2 and 2) and their fallbacks; after any
    further run of operations a second [initialize] changes nothing, so
    it never resets a breaker, and [can_operate_in_degraded_mode] answers
    [True]. *)
Theorem X11_initialize_registers_defaults_once (gd : GracefulDegradation A W R) :
  initialized gd = false ->
  let init := initialize anthropic_literal slack_literal code_analysis_literal
                code_generation_literal in
  let gd1 := init gd in
  (services gd1 !! "anthropic"%string =
     Some (CircuitBreaker_init (mkServiceConfig "anthropic" 3 300 60 true)) /\
   services gd1 !! "slack"%string =
     Some (CircuitBreaker_init (mkServiceConfig "slack" 5 180 30 true)) /\
   services gd1 !! "code_analysis"%string =
     Some (CircuitBreaker_init (mkServiceConfig "code_analysis" 2 120 45 true)) /\
   services gd1 !! "code_generation"%string =
     Some (CircuitBreaker_init (mkServiceConfig "code_generation" 2 120 45 true))) /\
  (fallback_handlers gd1 !! "anthropic"%string = Some (anthropic_fallback anthropic_literal) /\
   fallback_handlers gd1 !! "slack"%string = Some (slack_fallback slack_literal) /\
   fallback_handlers gd1 !! "code_analysis"%string =
     Some (code_analysis_fallback code_analysis_literal) /\
   fallback_handlers gd1 !! "code_generation"%string =
     Some (code_generation_fallback code_generation_literal)) /\
  forall gd2, rtc step gd1 gd2 ->
    init gd2 = gd2 /\ can_operate_in_degraded_mode gd2 = true.
Proof.
  intros Hinit init gd1.
  assert (Hs : services gd1 !! "anthropic"%string =
               Some (CircuitBreaker_init (mkServiceConfig "anthropic" 3 300 60 true))).
  { subst gd1 init. unfold initialize. rewrite Hinit. simpl.
    rewrite !lookup_insert_ne by discriminate. apply lookup_insert_eq. }
  assert (Hf : fallback_handlers gd1 !! "anthropic"%string =
               Some (anthropic_fallback anthropic_literal)).
  { subst gd1 init. unfold initialize. rewrite Hinit. simpl. unfold Callable in *.
    rewrite !lookup_insert_ne by discriminate. apply lookup_insert_eq. }
  split; [|split].
  - split; [exact Hs|]. subst gd1 init. unfold initialize. rewrite Hinit. simpl.
    repeat split.
    + rewrite !lookup_insert_ne by discriminate. apply lookup_insert_eq.
    + rewrite !lookup_insert_ne by discriminate. apply lookup_insert_eq.
    + apply lookup_insert_eq.
  - split; [exact Hf|]. subst gd1 init. unfold initialize. rewrite Hinit. simpl.
    unfold Callable in *. repeat split.
    + rewrite !lookup_insert_ne by discriminate. apply lookup_insert_eq.
    + rewrite !lookup_insert_ne by discriminate. apply lookup_insert_eq.
    + apply lookup_insert_eq.
  - intros gd2 Hrun.
    destruct (manager_run_keeps gd1 gd2 Hrun) as (H1 & H2 & H3).
    split.
    + subst init. unfold initialize. rewrite H3; [reflexivity|].
      subst gd1. unfold initialize. now rewrite Hinit.
    + apply covered_service_can_operate. exists "anthropic"%string. split.
      * apply H1. rewrite Hs. eauto.
      * apply H2. unfold Callable in *. rewrite Hf. eauto.
Qed.

(** X12: the wrapper of [with_graceful_degradation] around [func], for a
    name that is not registered and without an inline fallback, does what
    [func] does: same result, same world, one invocation, and the manager
    is untouched. *)
Theorem X12_wrapper_on_unregistered_name_is_transparent
  (gd : GracefulDegradation A W R) (service_name : string)
  (func : Callable A W R) (a : A) (w : W) :
  services gd !! service_name = None ->
  let r := with_graceful_degradation time_time service_name None func gd a w in
  outcome r = (func a w).1 /\ world r = (func a w).2 /\
  state r = gd /\ trace r = [Invoke a].
Proof.
  intros Hnone r. subst r. unfold with_graceful_degradation, call_service.
  rewrite Hnone. destruct (func a w) as [[v|e] w']; simpl; [auto|].
  destruct (isinstance_Exception e); auto.
Qed.

(** X14: with an inline fallback that always returns, the wrapper of
    [with_graceful_degradation] never raises an exception of class
    [Exception], whatever the operation, the breaker and the registered
    fallback do. *)
Theorem X14_inline_fallback_absorbs_exceptions (gd : GracefulDegradation A W R)
  (service_name : string) (inline func : Callable A W R) (a : A) (w : W) :
  (forall a' w', exists v w'', inline a' w' = (Return v, w'')) ->
  match outcome (with_graceful_degradation time_time service_name (Some inline)
                   func gd a w) with
  | Return _ => True
  | Raise e => isinstance_Exception e = false
  end.
Proof.
  intros Hinline. unfold with_graceful_degradation.
  destruct (outcome (call_service time_time gd service_name func a w)) as [v|e0] eqn:Ho.
  - now rewrite Ho.
  - destruct (isinstance_Exception e0) eqn:He0.
    + destruct (Hinline a (world (call_service time_time gd service_name func a w)))
        as (v & w'' & Hi).
      now rewrite Hi.
    + now rewrite Ho.
Qed.

Lemma reachable_registry_invariant (gd : GracefulDegradation A W R) :
  reachable time_time gd -> registry_invariant gd.
Proof.
  induction 1.
  - intros n cb. simpl. rewrite lookup_empty. discriminate.
  - now apply register_service_invariant.
  - assumption.
  - now apply mark_service_unavailable_invariant.
  - unfold is_service_available.
    pose proof (ensure_registered_invariant gd service_name IHreachable) as H1.
    destruct (services (ensure_registered gd service_name) !! service_name); exact H1.
  - now apply call_service_invariant.
Qed.

(** X27: [get_all_services_status] has an entry for each registered
    service and for nothing else, and the entry is the report of that
    service (never the "unknown" one); in a manager reached from a new
    one, an entry that says "healthy" shows no failure and an entry that
    says "failed" shows at least [max_failures] failures. *)
Theorem X27_reported_statuses_are_consistent (gd : GracefulDegradation A W R) :
  reachable time_time gd ->
  forall service_name,
    match get_all_services_status gd !! service_name with
    | None => services gd !! service_name = None
    | Some (NotRegistered _ _) => False
    | Some (Registered reported_name reported_status failures threshold _ has_fallback) =>
        reported_name = service_name /\
        is_Some (services gd !! service_name) /\
        get_all_services_status gd !! service_name =
          Some (get_service_status gd service_name) /\
        (has_fallback = true <-> is_Some (fallback_handlers gd !! service_name)) /\
        (reported_status = "healthy"%string -> failures = 0) /\
        (reported_status = "failed"%string -> failures >= threshold)
    end.
Proof.
  intros Hr service_name.
  pose proof (reachable_registry_invariant gd Hr service_name) as Hinv.
  unfold get_all_services_status.
  rewrite map_lookup_imap.
  unfold get_service_status.
  destruct (services gd !! service_name) as [cb|] eqn:E; simpl; [|reflexivity].
  destruct (Hinv cb eq_refl) as [Hh Hf].
  split; [reflexivity|]. split; [eauto|]. split; [reflexivity|]. split.
  - apply bool_decide_eq_true.
  - split; intros Hv; [apply Hh|apply Hf]; destruct (status cb);
      first [reflexivity | discriminate Hv].
Qed.

End ManagerProperties.

(** * Further properties of the error collector and the decorators *)

Section CollectorRuns.

Import error_handler.

(** With a negative capacity every record is dropped as soon as it is
    appended. *)
Lemma add_errors_negative_capacity (capacity : Z) (calls : list AddError) :
  capacity < 0 ->
  errors (add_errors (ErrorCollector_init capacity) calls) = [].
Proof.
  intros Hneg. induction calls as [|c calls IH] using rev_ind; [reflexivity|].
  rewrite add_errors_snoc. unfold add_error at 1. simpl.
  rewrite add_errors_max_errors, IH. simpl.
  destruct (Z.ltb_spec capacity (Z.of_nat 1)); [reflexivity|lia].
Qed.

(** X15: for any capacity, a collector that started empty holds the
    records of the last [capacity] calls of [add_error], oldest first,
    and all of them while fewer calls were made; with a capacity of zero
    or less it holds nothing. *)
Theorem X15_buffer_is_last_capacity_records (capacity : Z) (calls : list AddError) :
  let ec := add_errors (ErrorCollector_init capacity) calls in
  errors ec = make_error_info <$> drop (length calls - Z.to_nat capacity) calls /\
  length (errors ec) = Nat.min (length calls) (Z.to_nat capacity) /\
  max_errors ec = capacity.
Proof.
  intros ec.
  assert (H : errors ec =
              make_error_info <$> drop (length calls - Z.to_nat capacity) calls).
  { subst ec. destruct (Z.lt_ge_cases capacity 0) as [Hneg|Hpos].
    - rewrite add_errors_negative_capacity by assumption.
      replace (Z.to_nat capacity) with 0%nat by lia.
      rewrite Nat.sub_0_r, drop_all. reflexivity.
    - rewrite <- (Z2Nat.id capacity) at 1 by assumption.
      apply add_errors_errors. }
  split; [exact H|]. split.
  - rewrite H, length_fmap, length_drop. lia.
  - subst ec. apply add_errors_max_errors.
Qed.

Lemma counters_sum_step (m : gmap string nat) (k : string) :
  map_fold (fun _ n acc => (n + acc)%nat) 0%nat
    (<[k := (default 0 (m !! k) + 1)%nat]> m) =
  S (map_fold (fun _ n acc => (n + acc)%nat) 0%nat m).
Proof.
  destruct (m !! k) as [v|] eqn:E; simpl.
  - rewrite <- insert_delete_eq.
    rewrite map_fold_insert_L; [|intros; lia|apply lookup_delete_eq].
    rewrite (map_fold_delete_L _ _ k v m); [lia|intros; lia|exact E].
  - rewrite map_fold_insert_L; [reflexivity|intros; lia|exact E].
Qed.

(** X16: the counters of a collector that started empty add up to the
    number of calls of [add_error], whatever its capacity and however
    many records were evicted. *)
Theorem X16_counters_add_up_to_calls (capacity : Z) (calls : list AddError) :
  map_fold (fun _ n acc => (n + acc)%nat) 0%nat
    (error_counts (add_errors (ErrorCollector_init capacity) calls)) =
  length calls.
Proof.
  induction calls as [|c calls IH] using rev_ind; [reflexivity|].
  rewrite add_errors_snoc, length_app. unfold add_error at 1. simpl.
  rewrite counters_sum_step, IH. lia.
Qed.

End CollectorRuns.

Section DecoratorProperties.

Import error_handler.
Context {A W R : Type}.
Variable time_sleep : float -> W -> Outcome unit * W.

Lemma calls_made_app (e1 e2 : list (Effect A)) :
  calls_made (e1 ++ e2) = (calls_made e1 + calls_made e2)%nat.
Proof.
  induction e1 as [|x e1 IH]; [reflexivity|].
  destruct x; simpl; rewrite IH; reflexivity.
Qed.

Lemma sleeps_app (e1 e2 : list (Effect A)) :
  sleeps (e1 ++ e2) = sleeps e1 ++ sleeps e2.
Proof.
  induction e1 as [|x e1 IH]; [reflexivity|].
  destruct x; simpl; rewrite IH; reflexivity.
Qed.

Lemma range_positive (n : Z) :
  1 <= n -> range n = 0 :: (Z.of_nat <$> seq 1 (Z.to_nat n - 1)).
Proof.
  intros H. unfold range.
  replace (Z.to_nat n) with (S (Z.to_nat n - 1)) at 1 by lia. reflexivity.
Qed.

(** The loop over the attempts [i, i+1, ..., i+k-1] of [max_attempts =
    i + k] calls the function at most [k] times and sleeps at most
    [k - 1] times. *)
Lemma retry_loop_bounds (max_attempts : Z) (backoff_factor : float)
  (exceptions : PyExc -> bool)
  (on_retry : option (Z -> PyExc -> W -> Outcome unit * W))
  (func : Function A W R) (a : A) (k : nat) :
  forall (i : nat) (last : option PyExc) (d : float) (w : W),
    max_attempts = Z.of_nat (i + k) ->
    let run := retry_loop time_sleep max_attempts backoff_factor exceptions on_retry
                 func a (Z.of_nat <$> seq i k) last d w in
    (calls_made (effects run) <= k)%nat /\
    (length (sleeps (effects run)) <= k - 1)%nat.
Proof.
  induction k as [|k IH]; intros i last d w Hmax.
  - simpl. destruct last; simpl; lia.
  - change (seq i (S k)) with (i :: seq (S i) k). rewrite fmap_cons.
    cbn [retry_loop].
    destruct (func a w) as [[v|e] w1]; [simpl; lia|].
    destruct (exceptions e); [|simpl; lia].
    destruct (Z.eqb_spec (Z.of_nat i) (max_attempts - 1)) as [Heq|Hne]; [simpl; lia|].
    assert (Hk : (1 <= k)%nat) by lia.
    assert (Hrec : forall w3,
              (calls_made (effects (retry_loop time_sleep max_attempts backoff_factor
                 exceptions on_retry func a (Z.of_nat <$> seq (S i) k) (Some e)
                 (d * backoff_factor)%float w3)) <= k)%nat /\
              (length (sleeps (effects (retry_loop time_sleep max_attempts backoff_factor
                 exceptions on_retry func a (Z.of_nat <$> seq (S i) k) (Some e)
                 (d * backoff_factor)%float w3))) <= k - 1)%nat).
    { intros w3. apply (IH (S i) (Some e) (d * backoff_factor)%float w3). lia. }
    destruct on_retry as [callback|].
    + destruct (callback (Z.of_nat i + 1) e w1) as [[[]|e2] w2]; [|simpl; lia].
      destruct (time_sleep d w2) as [[[]|e3] w3]; [|simpl; lia].
      destruct (Hrec w3) as [Hc Hs].
      unfold after. cbn [effects].
      rewrite calls_made_app, sleeps_app, length_app. simpl. lia.
    + destruct (time_sleep d w1) as [[[]|e3] w3]; [|simpl; lia].
      destruct (Hrec w3) as [Hc Hs].
      unfold after. cbn [effects].
      rewrite calls_made_app, sleeps_app, length_app. simpl. lia.
Qed.

(** X17: the wrapper of [retry_on_failure] calls the decorated function
    at most [max_attempts] times and sleeps at most [max_attempts - 1]
    times, whatever the function, the callback [on_retry] and [sleep]
    do. *)
Theorem X17_retry_is_bounded (max_attempts : Z) (delay backoff_factor : float)
  (exceptions : PyExc -> bool)
  (on_retry : option (Z -> PyExc -> W -> Outcome unit * W))
  (func : Function A W R) (a : A) (w : W) :
  let run := retry_on_failure time_sleep max_attempts delay backoff_factor exceptions
               on_retry func a w in
  (calls_made (effects run) <= Z.to_nat max_attempts)%nat /\
  (length (sleeps (effects run)) <= Z.to_nat max_attempts - 1)%nat.
Proof.
  unfold retry_on_failure, range.
  destruct (Z.lt_ge_cases max_attempts 1) as [Hlow|Hhigh].
  - replace (Z.to_nat max_attempts) with 0%nat by lia. simpl. lia.
  - apply retry_loop_bounds. lia.
Qed.

(** X18: with [max_attempts <= 0] the wrapper of [retry_on_failure] never
    calls the decorated function; it raises the [TypeError] of
    [raise None]. *)
Theorem X18_retry_without_attempts (max_attempts : Z) (delay backoff_factor : float)
  (exceptions : PyExc -> bool)
  (on_retry : option (Z -> PyExc -> W -> Outcome unit * W))
  (func : Function A W R) (a : A) (w : W) :
  max_attempts <= 0 ->
  retry_on_failure time_sleep max_attempts delay backoff_factor exceptions on_retry
    func a w =
  mkRun (Raise (Exception "TypeError" "exceptions must derive from BaseException")) w [].
Proof.
  intros H. unfold retry_on_failure, range.
  replace (Z.to_nat max_attempts) with 0%nat by lia. reflexivity.
Qed.

(** The first call settles the run when it returns, or raises an
    exception that is not one of [exceptions]. *)
Lemma retry_first_call_settles (max_attempts : Z) (delay backoff_factor : float)
  (exceptions : PyExc -> bool)
  (on_retry : option (Z -> PyExc -> W -> Outcome unit * W))
  (func : Function A W R) (a : A) (w : W) :
  1 <= max_attempts ->
  (forall e, (func a w).1 = Raise e -> exceptions e = false) ->
  retry_on_failure time_sleep max_attempts delay backoff_factor exceptions on_retry
    func a w =
  mkRun (func a w).1 (func a w).2 [Called a].
Proof.
  intros Hmax Hexc. unfold retry_on_failure. rewrite range_positive by assumption.
  simpl. destruct (func a w) as [[v|e] w1]; [reflexivity|].
  simpl in Hexc. now rewrite (Hexc e eq_refl).
Qed.

(** X19: with [max_attempts >= 1], when the first call of the decorated
    function returns, or raises an exception that is not an instance of
    [exceptions], the wrapper of [retry_on_failure] does exactly what the
    function did: one call, no sleep, no callback. *)
Theorem X19_retry_first_call_settles (max_attempts : Z) (delay backoff_factor : float)
  (exceptions : PyExc -> bool)
  (on_retry : option (Z -> PyExc -> W -> Outcome unit * W))
  (func : Function A W R) (a : A) (w : W) :
  1 <= max_attempts ->
  (forall e, (func a w).1 = Raise e -> exceptions e = false) ->
  let run := retry_on_failure time_sleep max_attempts delay backoff_factor exceptions
               on_retry func a w in
  result run = (func a w).1 /\ world_after run = (func a w).2 /\
  effects run = [Called a].
Proof.
  intros Hmax Hexc run. subst run.
  rewrite retry_first_call_settles by assumption. auto.
Qed.

Lemma retry_loop_exhausts (max_attempts : Z) (backoff_factor : float)
  (exceptions : PyExc -> bool) (func : Function A W R) (a : A) :
  (forall w0, exists e w1, func a w0 = (Raise e, w1) /\ exceptions e = true) ->
  (forall d w0, exists w1, time_sleep d w0 = (Return tt, w1)) ->
  forall (k i : nat) (last : option PyExc) (d : float) (w : W),
    max_attempts = Z.of_nat (i + S k) ->
    let run := retry_loop time_sleep max_attempts backoff_factor exceptions None
                 func a (Z.of_nat <$> seq i (S k)) last d w in
    (exists e, result run = Raise e /\ exceptions e = true) /\
    calls_made (effects run) = S k /\
    sleeps (effects run) = backoff_delays d backoff_factor k.
Proof.
  intros Hfunc Hsleep. induction k as [|k IH]; intros i last d w Hmax.
  - simpl. destruct (Hfunc w) as (e & w1 & Hf & He). rewrite Hf, He.
    destruct (Z.eqb_spec (Z.of_nat i) (max_attempts - 1)) as [_|Hne]; [|lia].
    simpl. eauto.
  - change (seq i (S (S k))) with (i :: seq (S i) (S k)). rewrite fmap_cons.
    cbn [retry_loop].
    destruct (Hfunc w) as (e & w1 & Hf & He). rewrite Hf, He.
    destruct (Z.eqb_spec (Z.of_nat i) (max_attempts - 1)) as [Heq|_]; [lia|].
    destruct (Hsleep d w1) as (w2 & Hs). rewrite Hs.
    destruct (IH (S i) (Some e) (d * backoff_factor)%float w2 ltac:(lia))
      as (Hr & Hc & Hsl).
    unfold after. cbn [result effects]. split; [exact Hr|].
    rewrite calls_made_app, sleeps_app, Hc, Hsl. simpl. auto.
Qed.

(** X20: with [max_attempts >= 1] and no callback, when every call of the
    decorated function raises an instance of [exceptions] and [sleep]
    returns, the wrapper of [retry_on_failure] calls the function exactly
    [max_attempts] times, sleeps between the calls for [delay],
    [delay * backoff_factor], ... ([max_attempts - 1] sleeps), and then
    raises an instance of [exceptions]. *)
Theorem X20_retry_exhausts_attempts (max_attempts : Z) (delay backoff_factor : float)
  (exceptions : PyExc -> bool) (func : Function A W R) (a : A) (w : W) :
  1 <= max_attempts ->
  (forall w0, exists e w1, func a w0 = (Raise e, w1) /\ exceptions e = true) ->
  (forall d w0, exists w1, time_sleep d w0 = (Return tt, w1)) ->
  let run := retry_on_failure time_sleep max_attempts delay backoff_factor exceptions
               None func a w in
  (exists e, result run = Raise e /\ exceptions e = true) /\
  calls_made (effects run) = Z.to_nat max_attempts /\
  sleeps (effects run) = backoff_delays delay backoff_factor (Z.to_nat max_attempts - 1).
Proof.
  intros Hmax Hfunc Hsleep run. subst run. unfold retry_on_failure, range.
  destruct (Z.to_nat max_attempts) as [|k] eqn:Ek; [lia|].
  replace (S k - 1)%nat with k by lia.
  apply retry_loop_exhausts; [assumption|assumption|lia].
Qed.

(** X21: stacked as in the agent, [retry_on_failure] around
    [safe_execute] with [raise_on_error=False] never retries: when
    [exceptions] holds only classes derived from [Exception], the inner
    wrapper is called once, what it returns (the value of the function,
    or [fallback_value] after an error) is the result, and no exception
    of class [Exception] comes out. *)
Theorem X21_retry_around_safe_execute_never_retries (max_attempts : Z)
  (delay backoff_factor : float) (exceptions : PyExc -> bool)
  (on_retry : option (Z -> PyExc -> W -> Outcome unit * W))
  (fallback_value : R) (log_errors : bool) (func : Function A W R) (a : A) (w : W) :
  1 <= max_attempts ->
  (forall e, exceptions e = true -> isinstance_Exception e = true) ->
  let inner := safe_execute fallback_value log_errors false func in
  let run := retry_on_failure time_sleep max_attempts delay backoff_factor exceptions
               on_retry inner a w in
  effects run = [Called a] /\
  world_after run = (func a w).2 /\
  (forall v, (func a w).1 = Return v -> result run = Return v) /\
  (forall e, (func a w).1 = Raise e -> isinstance_Exception e = true ->
     result run = Return fallback_value) /\
  (forall e, result run = Raise e -> isinstance_Exception e = false).
Proof.
  intros Hmax Hexc inner run.
  assert (Hinner : forall e, (inner a w).1 = Raise e -> isinstance_Exception e = false).
  { subst inner. unfold safe_execute. destruct (func a w) as [[v|e0] w1]; simpl.
    - discriminate.
    - destruct (isinstance_Exception e0) eqn:E; simpl; [discriminate|].
      intros e [= <-]. exact E. }
  assert (Hrun : run = mkRun (inner a w).1 (inner a w).2 [Called a]).
  { subst run. apply retry_first_call_settles; [assumption|].
    intros e He. specialize (Hinner e He).
    destruct (exceptions e) eqn:E; [|reflexivity].
    apply Hexc in E. congruence. }
  rewrite Hrun. cbn [result world_after effects].
  split; [reflexivity|].
  split; [subst inner; unfold safe_execute;
          destruct (func a w) as [[v|e0] w1]; [reflexivity|];
          destruct (isinstance_Exception e0); reflexivity|].
  split; [|split].
  - intros v Hv. subst inner. unfold safe_execute.
    destruct (func a w) as [[v0|e0] w1]; simpl in *; [congruence|discriminate].
  - intros e He Hi. subst inner. unfold safe_execute.
    destruct (func a w) as [[v0|e0] w1]; simpl in *; [discriminate|].
    injection He as ->. now rewrite Hi.
  - exact Hinner.
Qed.

End DecoratorProperties.

(** * Further properties of the health monitor *)

Section MonitorRunsProperties.

Import error_handler health_monitor.
Local Open Scope float_scope.

Lemma dict_get_set_ne {V : Type} (k k' : string) (v : V) (d : list (string * V)) :
  k' <> k -> dict_get k' (dict_set k v d) = dict_get k' d.
Proof.
  intros Hne. induction d as [|[k0 v0] d IH]; simpl.
  - destruct (decide (k = k')); [congruence|reflexivity].
  - destruct (decide (k0 = k)) as [->|Hk]; simpl.
    + destruct (decide (k = k')); [congruence|reflexivity].
    + destruct (decide (k0 = k')); [reflexivity|exact IH].
Qed.

Lemma dict_set_keys {V : Type} (k : string) (v : V) (d : list (string * V)) :
  (dict_set k v d).*1 =
  match dict_get k d with
  | Some _ => d.*1
  | None => d.*1 ++ [k]
  end.
Proof.
  induction d as [|[k0 v0] d IH]; [reflexivity|].
  cbn [dict_set dict_get].
  destruct (decide (k0 = k)) as [->|Hk]; [reflexivity|].
  rewrite fmap_cons, IH. destruct (dict_get k d); reflexivity.
Qed.

Lemma dict_get_None_keys {V : Type} (k : string) (d : list (string * V)) :
  dict_get k d = None -> k ∉ d.*1.
Proof.
  induction d as [|[k0 v0] d IH]; simpl; intros H.
  - apply not_elem_of_nil.
  - destruct (decide (k0 = k)) as [->|Hk]; [discriminate|].
    apply not_elem_of_cons. split; [congruence|now apply IH].
Qed.

(** One pass of the loop changes nothing but the history. *)
Lemma monitoring_iteration_frame (hm : HealthMonitor) (t : Tick) :
  let hm' := (monitoring_iteration hm t).2 in
  api_metrics hm' = api_metrics hm /\ error_collector hm' = error_collector hm /\
  max_history hm' = max_history hm /\ thresholds hm' = thresholds hm /\
  start_time hm' = start_time hm.
Proof.
  unfold monitoring_iteration.
  destruct (collect_metrics hm (sources t)) as [m|e].
  - destruct (reporting t) as [[]|e]; [simpl; auto 6|].
    destruct (isinstance_Exception e); simpl; auto 6.
  - destruct (isinstance_Exception e); simpl; auto 6.
Qed.

Lemma monitoring_loop_frame (ticks : list Tick) :
  forall hm : HealthMonitor,
    let hm' := (_monitoring_loop hm ticks).2 in
    api_metrics hm' = api_metrics hm /\ error_collector hm' = error_collector hm /\
    max_history hm' = max_history hm /\ thresholds hm' = thresholds hm /\
    start_time hm' = start_time hm.
Proof.
  induction ticks as [|t ticks IH]; intros hm; [simpl; auto 6|].
  simpl. pose proof (monitoring_iteration_frame hm t) as Hf.
  destruct (monitoring_iteration hm t) as [[e|] hm1]; simpl in Hf.
  - exact Hf.
  - destruct (IH hm1) as (H1 & H2 & H3 & H4 & H5).
    destruct Hf as (F1 & F2 & F3 & F4 & F5).
    simpl. rewrite H1, H2, H3, H4, H5. auto 6.
Qed.

(** X22: in every monitor built by [record_api_call] and the monitoring
    loop from a new one, the row of a service carries that service's
    name, has recorded at least one call, and its [total_calls] is the
    sum of [successful_calls] and [failed_calls]; no service has two
    rows. *)
Theorem X22_api_metrics_rows_are_consistent (hm : HealthMonitor) :
  monitor_reachable hm ->
  NoDup (api_metrics hm).*1 /\
  forall (service : string) (m : APIMetrics),
    dict_get service (api_metrics hm) = Some m ->
    service_name m = service /\
    (1 <= total_calls m)%nat /\
    total_calls m = (successful_calls m + failed_calls m)%nat.
Proof.
  induction 1 as [ci now|hm service success rt err now Hr IH|hm ticks Hr IH].
  - split; [apply NoDup_nil_2|]. intros service m H. discriminate H.
  - destruct IH as [Hnd Hrows]. unfold record_api_call. simpl. split.
    + rewrite dict_set_keys.
      destruct (dict_get service (api_metrics hm)) eqn:E; [exact Hnd|].
      apply NoDup_app. split; [exact Hnd|]. split; [|apply NoDup_singleton].
      intros x Hx Hx'. apply list_elem_of_singleton in Hx'. subst x.
      exact (dict_get_None_keys _ _ E Hx).
    + intros s m. destruct (decide (s = service)) as [->|Hne].
      * rewrite dict_get_set. intros [= <-]. simpl.
        destruct (dict_get service (api_metrics hm)) as [m0|] eqn:E.
        -- destruct (Hrows service m0 E) as (Hn & Hpos & Hsum).
           destruct success; simpl; repeat split; try assumption; lia.
        -- destruct success; simpl; repeat split; lia.
      * rewrite dict_get_set_ne by assumption. apply Hrows.
  - destruct (monitoring_loop_frame ticks hm) as (H1 & _). rewrite H1. exact IH.
Qed.

(** X23: [record_api_call] for one service leaves the row of every other
    service as it was, and keeps the order of the services: a service
    recorded for the first time goes to the end. *)
Theorem X23_record_api_call_touches_one_row (hm : HealthMonitor) (service : string)
  (success : bool) (response_time : float) (error : option string) (now : string) :
  let hm' := record_api_call hm service success response_time error now in
  (forall other, other <> service ->
     dict_get other (api_metrics hm') = dict_get other (api_metrics hm)) /\
  (api_metrics hm').*1 =
    (if decide (is_Some (dict_get service (api_metrics hm))) then (api_metrics hm).*1
     else (api_metrics hm).*1 ++ [service]) /\
  health_history hm' = health_history hm /\
  error_collector hm' = error_collector hm.
Proof.
  intros hm'. subst hm'. unfold record_api_call. simpl. split; [|split; [|split]].
  - intros other Hne. now apply dict_get_set_ne.
  - rewrite dict_set_keys.
    destruct (dict_get service (api_metrics hm)) as [m|].
    + rewrite decide_True by eauto. reflexivity.
    + rewrite decide_False by (intros [x Hx]; discriminate Hx). reflexivity.
  - reflexivity.
  - reflexivity.
Qed.

(** The three verdicts. *)
Lemma determine_health_status_range (th : Thresholds)
  (cpu memory disk error_rate response_time : float) :
  _determine_health_status th cpu memory disk error_rate response_time
  ∈ ["healthy"; "warning"; "critical"]%string.
Proof.
  unfold _determine_health_status.
  destruct (_ || _ || _ || _ || _); [set_solver|].
  destruct (_ || _ || _ || _ || _); set_solver.
Qed.

(** [collect_metrics] lets no exception of class [Exception] out, and the
    status of the sample it returns is one of the three verdicts. *)
Lemma collect_metrics_total (hm : HealthMonitor) (src : Sources) :
  match collect_metrics hm src with
  | Return metrics => status metrics ∈ ["healthy"; "warning"; "critical"]%string
  | Raise e => isinstance_Exception e = false
  end.
Proof.
  unfold collect_metrics.
  destruct (collect_metrics_try hm src) as [m|e] eqn:E.
  - unfold collect_metrics_try in E.
    destruct (src_cpu_percent src) as [cpu|]; simpl in E; [|discriminate].
    destruct (src_virtual_memory src) as [memory|]; simpl in E; [|discriminate].
    destruct (src_disk_usage src) as [disk|]; simpl in E; [|discriminate].
    destruct (src_net_connections src) as [connections|]; simpl in E; [|discriminate].
    injection E as <-. simpl. apply determine_health_status_range.
  - destruct (isinstance_Exception e) eqn:He; [|exact He].
    simpl. set_solver.
Qed.

Lemma append_history_bound (hm : HealthMonitor) (m : HealthMetrics) (cap : nat) :
  max_history hm = Z.of_nat cap ->
  (length (health_history hm) <= cap)%nat ->
  (length (health_history (append_history hm m)) <= cap)%nat.
Proof.
  intros Hmax Hlen. unfold append_history. simpl. rewrite Hmax, length_app. simpl.
  destruct (Z.ltb_spec (Z.of_nat cap) (Z.of_nat (length (health_history hm) + 1))).
  - destruct (health_history hm) as [|x l]; simpl in *; [lia|].
    rewrite length_app. simpl. lia.
  - rewrite length_app. simpl. lia.
Qed.

(** What one pass of the loop does to the history. *)
Lemma monitoring_iteration_history (hm : HealthMonitor) (t : Tick) :
  (monitoring_iteration hm t).2 = hm \/
  exists m, (monitoring_iteration hm t).2 = append_history hm m /\
            status m ∈ ["healthy"; "warning"; "critical"]%string.
Proof.
  unfold monitoring_iteration.
  pose proof (collect_metrics_total hm (sources t)) as Hc.
  destruct (collect_metrics hm (sources t)) as [m|e].
  - right. exists m. split; [|exact Hc].
    destruct (reporting t) as [[]|e]; [reflexivity|].
    destruct (isinstance_Exception e); reflexivity.
  - left. destruct (isinstance_Exception e); reflexivity.
Qed.

Lemma append_history_statuses (hm : HealthMonitor) (m : HealthMetrics) :
  Forall (fun x => status x ∈ ["healthy"; "warning"; "critical"]%string)
    (health_history hm) ->
  status m ∈ ["healthy"; "warning"; "critical"]%string ->
  Forall (fun x => status x ∈ ["healthy"; "warning"; "critical"]%string)
    (health_history (append_history hm m)).
Proof.
  intros Hall Hm. unfold append_history. simpl.
  assert (Happ : Forall (fun x => status x ∈ ["healthy"; "warning"; "critical"]%string)
                   (health_history hm ++ [m])).
  { apply Forall_app. split; [exact Hall|]. now apply Forall_singleton. }
  destruct (_ <? _)%Z; [|exact Happ].
  destruct (health_history hm ++ [m]) as [|x l]; [constructor|].
  simpl. now inversion Happ.
Qed.

(** The invariant of the monitor that the theorems below share. *)
Lemma monitor_reachable_invariant (hm : HealthMonitor) :
  monitor_reachable hm ->
  max_history hm = 100%Z /\
  thresholds hm = default_thresholds /\
  error_collector hm = ErrorCollector_init default_max_errors /\
  (length (health_history hm) <= 100)%nat /\
  Forall (fun x => status x ∈ ["healthy"; "warning"; "critical"]%string)
    (health_history hm).
Proof.
  induction 1 as [ci now|hm service success rt err now Hr IH|hm ticks Hr IH].
  - simpl. repeat split; [lia|constructor].
  - exact IH.
  - clear Hr. revert hm IH. induction ticks as [|t ticks IHt]; intros hm IH; [exact IH|].
    simpl. destruct (monitoring_iteration_history hm t) as [Heq|(m & Heq & Hm)];
      destruct (monitoring_iteration hm t) as [[e|] hm1]; simpl in Heq; subst hm1.
    + exact IH.
    + now apply IHt.
    + destruct IH as (H1 & H2 & H3 & H4 & H5). simpl.
      repeat split; try assumption.
      * now apply (append_history_bound hm m 100).
      * now apply append_history_statuses.
    + apply IHt. destruct IH as (H1 & H2 & H3 & H4 & H5).
      repeat split; try assumption.
      * now apply (append_history_bound hm m 100).
      * now apply append_history_statuses.
Qed.

(** X24: in every monitor built by [record_api_call] and the monitoring
    loop from a new one, the history holds at most 100 samples, and the
    status of each of them is "healthy", "warning" or "critical". *)
Theorem X24_history_is_bounded (hm : HealthMonitor) :
  monitor_reachable hm ->
  (length (health_history hm) <= 100)%nat /\
  forall m, m ∈ health_history hm ->
    status m = "healthy"%string \/ status m = "warning"%string \/
    status m = "critical"%string.
Proof.
  intros Hr. destruct (monitor_reachable_invariant hm Hr) as (_ & _ & _ & Hlen & Hall).
  split; [exact Hlen|]. intros m Hm.
  rewrite Forall_forall in Hall. specialize (Hall m Hm).
  rewrite !elem_of_cons, elem_of_nil in Hall. tauto.
Qed.

(** X25: no method of the monitor writes to the error collector it owns:
    in every monitor built by [record_api_call] and the monitoring loop
    from a new one the collector is as constructed, so the number of
    errors that [_calculate_error_rate] divides is 0 and the summary
    reports no error. *)
Theorem X25_monitor_collector_is_never_written (hm : HealthMonitor) :
  monitor_reachable hm ->
  error_collector hm = ErrorCollector_init default_max_errors /\
  map_fold (fun _ n acc => (n + acc)%nat) 0%nat (error_counts (error_collector hm)) = 0%nat /\
  get_error_summary (error_collector hm) = mkErrorSummary 0 ∅ [].
Proof.
  intros Hr. destruct (monitor_reachable_invariant hm Hr) as (_ & _ & Hec & _).
  rewrite Hec. repeat split.
Qed.

(** X26: [_check_alerts] looks at the CPU, the memory and the error rate
    only (a sample that differs in the disk usage, the response time or
    any other field gets the same alerts), logs at most three alerts, and
    logs none for a sample whose status, derived with the same
    thresholds, is "healthy". *)
Theorem X26_alerts_cover_cpu_memory_error_rate (hm : HealthMonitor) (m : HealthMetrics) :
  (forall m',
     cpu_percent m' = cpu_percent m ->
     memory_percent m' = memory_percent m ->
     error_rate m' = error_rate m ->
     _check_alerts hm m' = _check_alerts hm m) /\
  (length (_check_alerts hm m) <= 3)%nat /\
  (_determine_health_status (thresholds hm) (cpu_percent m) (memory_percent m)
     (disk_usage_percent m) (error_rate m) (api_response_time_avg m) = "healthy"%string ->
   _check_alerts hm m = []).
Proof.
  split; [|split].
  - intros m' H1 H2 H3. unfold _check_alerts. now rewrite H1, H2, H3.
  - unfold _check_alerts.
    destruct (geb (cpu_percent m) (cpu_critical (thresholds hm))),
      (geb (cpu_percent m) (cpu_warning (thresholds hm))),
      (geb (memory_percent m) (memory_critical (thresholds hm))),
      (geb (memory_percent m) (memory_warning (thresholds hm))),
      (geb (error_rate m) (error_rate_critical (thresholds hm))),
      (geb (error_rate m) (error_rate_warning (thresholds hm))); simpl; lia.
  - unfold _determine_health_status, _check_alerts.
    destruct (geb (cpu_percent m) (cpu_critical (thresholds hm))),
      (geb (memory_percent m) (memory_critical (thresholds hm))),
      (geb (disk_usage_percent m) (disk_critical (thresholds hm))),
      (geb (error_rate m) (error_rate_critical (thresholds hm))),
      (geb (api_response_time_avg m) (response_time_critical (thresholds hm)));
      simpl; try discriminate.
    destruct (geb (cpu_percent m) (cpu_warning (thresholds hm))),
      (geb (memory_percent m) (memory_warning (thresholds hm))),
      (geb (disk_usage_percent m) (disk_warning (thresholds hm))),
      (geb (error_rate m) (error_rate_warning (thresholds hm))),
      (geb (api_response_time_avg m) (response_time_warning (thresholds hm)));
      simpl; try discriminate.
    reflexivity.
Qed.

(** X4: [get_health_status] never returns the "unknown" dictionary: it
    returns a snapshot, or lets through an exception that is not of class
    [Exception].  When the history is not empty the snapshot is that of
    the latest sample and the sources are not read. *)
Theorem X4_health_status_is_a_snapshot (hm : HealthMonitor) (src : Sources) :
  (match get_health_status hm src with
   | Return (Snapshot _ _ _ _ _ _ _ _ _ _ _ _) => True
   | Return (NoData _ _ _) => False
   | Raise e => isinstance_Exception e = false
   end) /\
  (forall latest, last (health_history hm) = Some latest ->
     forall src', get_health_status hm src' = Return (snapshot hm latest)).
Proof.
  split.
  - unfold get_health_status.
    destruct (last (health_history hm)); [exact I|].
    pose proof (collect_metrics_total hm src) as Hc.
    destruct (collect_metrics hm src) as [m|e]; [exact I|].
    now rewrite Hc.
  - intros latest Hl src'. unfold get_health_status. now rewrite Hl.
Qed.

End MonitorRunsProperties.

(** * The further properties on the scenarios *)

Section ManagerScenarios.

Import graceful_degradation scenario example.

Lemma X1_success_resets_breaker_witness :
  let r := call clock llm_failed (succeed "ok") tt 200%Q in
  outcome r = Return "ok"%string /\ world r = 200%Q /\
  state r = mkCircuitBreaker llm_config 0 100 HEALTHY /\
  invocations (trace r) = 1%nat.
Proof.
  apply (X1_success_resets_breaker clock llm_failed (succeed "ok") tt 200%Q 200%Q "ok").
  - right. exists 100%Q. split.
    + exists 100, 0. split; [reflexivity|]. split; [lia|reflexivity].
    + split; [reflexivity|]. unfold Qle. simpl. lia.
  - reflexivity.
Defined.

Lemma three_failures_fail : Forall fails three_failures.
Proof.
  repeat constructor; exists timed_out; eexists; split; reflexivity.
Defined.

Lemma X2_consecutive_failures_trip_breaker_witness :
  let cb := (call_each clock (CircuitBreaker_init llm_config) three_failures).1 in
  let tr := (call_each clock (CircuitBreaker_init llm_config) three_failures).2 in
  failure_count cb = Z.of_nat (length three_failures) /\
  invocations tr = length three_failures /\
  (Z.of_nat (length three_failures) < max_failures llm_config -> status cb = DEGRADED) /\
  (Z.of_nat (length three_failures) = max_failures llm_config ->
   status cb = FAILED /\
   forall (func : Callable unit Q string) (a : unit) (w : Q),
     (clock w - last_failure_time cb <= inject_Z (recovery_time llm_config))%Q ->
     outcome (call clock cb func a w) =
       Raise (ServiceUnavailableError ("Servicio " ++ name llm_config ++ " no disponible")) /\
     state (call clock cb func a w) = cb /\
     trace (call clock cb func a w) = []).
Proof.
  apply (X2_consecutive_failures_trip_breaker clock llm_config three_failures).
  - discriminate.
  - exact three_failures_fail.
  - simpl. lia.
Defined.

Lemma X3_open_breaker_answers_with_fallback_witness :
  let r := call_service clock covered_tripped "llm" (succeed "ok") tt 30%Q in
  state r = covered_tripped /\
  invocations (trace r) = 0%nat /\
  (forall fallback, fallback_handlers covered_tripped !! "llm"%string = Some fallback ->
     outcome r = (fallback tt 30%Q).1 /\ world r = (fallback tt 30%Q).2) /\
  (fallback_handlers covered_tripped !! "llm"%string = None ->
     outcome r = Raise (ServiceUnavailableError "Servicio llm no disponible") /\
     world r = 30%Q).
Proof.
  apply (X3_open_breaker_answers_with_fallback clock covered_tripped "llm"
           (mkCircuitBreaker llm_config 3 5 FAILED) (succeed "ok") tt 30%Q).
  - reflexivity.
  - reflexivity.
  - unfold Qle. simpl. lia.
Defined.

Lemma X5_operation_error_needs_enabled_fallback_witness :
  let r := call_service clock with_disabled_fallback "llm" (fail timed_out) tt 10%Q in
  services (state r) !! "llm"%string =
    Some (mkCircuitBreaker no_fallback_config 1 10 DEGRADED) /\
  (forall fallback,
     fallback_handlers with_disabled_fallback !! "llm"%string = Some fallback ->
     fallback_enabled no_fallback_config = true ->
     outcome r = (fallback tt 10%Q).1 /\ world r = (fallback tt 10%Q).2) /\
  (fallback_handlers with_disabled_fallback !! "llm"%string = None \/
   fallback_enabled no_fallback_config = false ->
     outcome r = Raise timed_out /\ world r = 10%Q).
Proof.
  apply (X5_operation_error_needs_enabled_fallback clock with_disabled_fallback "llm"
           (CircuitBreaker_init no_fallback_config) (fail timed_out) tt 10%Q 10%Q timed_out).
  - reflexivity.
  - left. discriminate.
  - reflexivity.
  - reflexivity.
  - reflexivity.
Defined.

Lemma X7_unknown_service_is_registered_by_query_witness :
  let gd := GracefulDegradation_init (A:=unit) (W:=Q) (R:=string) in
  let gd' := (is_service_available gd "ghost").2 in
  get_service_status gd "ghost" = NotRegistered "unknown" "Servicio no registrado" /\
  (is_service_available gd "ghost").1 = true /\
  services gd' !! "ghost"%string = Some (CircuitBreaker_init (default_config "ghost")) /\
  get_service_status gd' "ghost" =
    Registered "ghost" "healthy" 0 3 0
      (bool_decide (is_Some (fallback_handlers gd !! "ghost"%string))) /\
  (forall other, other <> "ghost"%string -> services gd' !! other = services gd !! other).
Proof.
  apply (X7_unknown_service_is_registered_by_query
           (GracefulDegradation_init (A:=unit) (W:=Q) (R:=string)) "ghost").
  reflexivity.
Defined.

Lemma covered_is_covered : has_covered_service covered.
Proof.
  exists "llm"%string. split; eexists; reflexivity.
Defined.

Lemma X10_covered_service_keeps_degraded_mode_witness :
  (forall n, is_Some (services covered !! n) -> is_Some (services covered_tripped !! n)) /\
  (forall n, is_Some (fallback_handlers covered !! n) ->
             is_Some (fallback_handlers covered_tripped !! n)) /\
  can_operate_in_degraded_mode covered_tripped = true.
Proof.
  apply (X10_covered_service_keeps_degraded_mode clock "a" "b" "c" "d"
           covered covered_tripped).
  - apply rtc_once. apply step_mark_service_unavailable.
  - exact covered_is_covered.
Defined.

Lemma X11_initialize_registers_defaults_once_witness :
  let init := initialize (A:=unit) (W:=Q) "a" "b" "c" "d" in
  let gd1 := init GracefulDegradation_init in
  (services gd1 !! "anthropic"%string =
     Some (CircuitBreaker_init (mkServiceConfig "anthropic" 3 300 60 true)) /\
   services gd1 !! "slack"%string =
     Some (CircuitBreaker_init (mkServiceConfig "slack" 5 180 30 true)) /\
   services gd1 !! "code_analysis"%string =
     Some (CircuitBreaker_init (mkServiceConfig "code_analysis" 2 120 45 true)) /\
   services gd1 !! "code_generation"%string =
     Some (CircuitBreaker_init (mkServiceConfig "code_generation" 2 120 45 true))) /\
  (fallback_handlers gd1 !! "anthropic"%string = Some (anthropic_fallback "a"%string) /\
   fallback_handlers gd1 !! "slack"%string = Some (slack_fallback "b"%string) /\
   fallback_handlers gd1 !! "code_analysis"%string =
     Some (code_analysis_fallback "c"%string) /\
   fallback_handlers gd1 !! "code_generation"%string =
     Some (code_generation_fallback "d"%string)) /\
  forall gd2, rtc (manager_step clock "a" "b" "c" "d") gd1 gd2 ->
    init gd2 = gd2 /\ can_operate_in_degraded_mode gd2 = true.
Proof.
  apply (X11_initialize_registers_defaults_once clock "a" "b" "c" "d"
           GracefulDegradation_init).
  reflexivity.
Defined.

Lemma X12_wrapper_on_unregistered_name_is_transparent_witness :
  let r := with_graceful_degradation clock "anthropic_api" None (fail timed_out)
             covered tt 7%Q in
  outcome r = Raise timed_out /\ world r = 7%Q /\
  state r = covered /\ trace r = [Invoke tt].
Proof.
  apply (X12_wrapper_on_unregistered_name_is_transparent clock covered "anthropic_api"
           (fail timed_out) tt 7%Q).
  reflexivity.
Defined.

Lemma X13_unavailable_iff_reported_failed_witness :
  is_service_available covered_tripped "llm" =
    (negb (String.eqb
             (match get_service_status covered_tripped "llm" with
              | Registered _ s _ _ _ _ => s
              | NotRegistered s _ => s
              end) "failed"), covered_tripped).
Proof.
  apply (X13_unavailable_iff_reported_failed covered_tripped "llm"
           (mkCircuitBreaker llm_config 3 5 FAILED)).
  reflexivity.
Defined.

Lemma X14_inline_fallback_absorbs_exceptions_witness :
  match outcome (with_graceful_degradation clock "llm" (Some (succeed "inline"))
                   (fail timed_out) tripped tt 30%Q) with
  | Return _ => True
  | Raise e => isinstance_Exception e = false
  end.
Proof.
  apply (X14_inline_fallback_absorbs_exceptions clock tripped "llm" (succeed "inline")
           (fail timed_out) tt 30%Q).
  intros a' w'. exists "inline"%string, w'. reflexivity.
Defined.

Lemma tripped_reachable : reachable clock tripped.
Proof.
  unfold tripped. apply reach_mark_service_unavailable, reach_register_service, reach_init.
Defined.

Lemma X27_reported_statuses_are_consistent_witness :
  match get_all_services_status tripped !! "llm"%string with
  | None => services tripped !! "llm"%string = None
  | Some (NotRegistered _ _) => False
  | Some (Registered reported_name reported_status failures threshold _ has_fallback) =>
      reported_name = "llm"%string /\
      is_Some (services tripped !! "llm"%string) /\
      get_all_services_status tripped !! "llm"%string =
        Some (get_service_status tripped "llm") /\
      (has_fallback = true <-> is_Some (fallback_handlers tripped !! "llm"%string)) /\
      (reported_status = "healthy"%string -> failures = 0) /\
      (reported_status = "failed"%string -> failures >= threshold)
  end.
Proof.
  apply (X27_reported_statuses_are_consistent clock tripped tripped_reachable "llm").
Defined.

End ManagerScenarios.

Section DecoratorScenarios.

Import error_handler example.
Local Open Scope float_scope.

Lemma X18_retry_without_attempts_witness :
  retry_on_failure sleep_returns 0 1 2 isinstance_Exception None
    (answers "never called") tt tt =
  mkRun (Raise (Exception "TypeError" "exceptions must derive from BaseException")) tt [].
Proof.
  apply (X18_retry_without_attempts sleep_returns 0 1 2 isinstance_Exception None
           (answers "never called") tt tt).
  lia.
Defined.

Lemma X19_retry_first_call_settles_witness :
  let run := retry_on_failure sleep_returns 3 1 2 isinstance_Exception None
               (refuses interrupted) tt tt in
  result run = Raise interrupted /\ world_after run = tt /\ effects run = [Called tt].
Proof.
  apply (X19_retry_first_call_settles sleep_returns 3 1 2 isinstance_Exception None
           (refuses interrupted) tt tt).
  - lia.
  - intros e [= <-]. reflexivity.
Defined.

Lemma X20_retry_exhausts_attempts_witness :
  let run := retry_on_failure sleep_returns 3 1 2 isinstance_Exception None
               (refuses connection_error) tt tt in
  (exists e, result run = Raise e /\ isinstance_Exception e = true) /\
  calls_made (effects run) = Z.to_nat 3 /\
  sleeps (effects run) = backoff_delays 1 2 (Z.to_nat 3 - 1).
Proof.
  apply (X20_retry_exhausts_attempts sleep_returns 3 1 2 isinstance_Exception
           (refuses connection_error) tt tt).
  - lia.
  - intros w0. exists connection_error, w0. split; reflexivity.
  - intros d w0. exists w0. reflexivity.
Defined.

Lemma X21_retry_around_safe_execute_never_retries_witness :
  let inner := safe_execute "nothing"%string true false (refuses connection_error) in
  let run := retry_on_failure sleep_returns 3 1 2 isinstance_Exception None inner tt tt in
  effects run = [Called tt] /\
  world_after run = ((refuses connection_error) tt tt).2 /\
  (forall v, ((refuses connection_error) tt tt).1 = Return v -> result run = Return v) /\
  (forall e, ((refuses connection_error) tt tt).1 = Raise e ->
     isinstance_Exception e = true -> result run = Return "nothing"%string) /\
  (forall e, result run = Raise e -> isinstance_Exception e = false).
Proof.
  apply (X21_retry_around_safe_execute_never_retries sleep_returns 3 1 2
           isinstance_Exception None "nothing"%string true (refuses connection_error) tt tt).
  - lia.
  - intros e H. exact H.
Defined.

End DecoratorScenarios.

Section MonitorRunScenarios.

Import error_handler health_monitor scenario example.

Lemma busy_monitor_reachable : monitor_reachable busy_monitor.
Proof.
  unfold busy_monitor.
  apply reach_monitoring_loop, reach_record_api_call, reach_record_api_call,
    reach_monitor_init.
Defined.

Lemma X22_api_metrics_rows_are_consistent_witness :
  NoDup (api_metrics busy_monitor).*1 /\
  forall (service : string) (m : APIMetrics),
    dict_get service (api_metrics busy_monitor) = Some m ->
    service_name m = service /\
    (1 <= total_calls m)%nat /\
    total_calls m = (successful_calls m + failed_calls m)%nat.
Proof.
  apply (X22_api_metrics_rows_are_consistent busy_monitor busy_monitor_reachable).
Defined.

Lemma X24_history_is_bounded_witness :
  (length (health_history busy_monitor) <= 100)%nat /\
  forall m, m ∈ health_history busy_monitor ->
    status m = "healthy"%string \/ status m = "warning"%string \/
    status m = "critical"%string.
Proof.
  apply (X24_history_is_bounded busy_monitor busy_monitor_reachable).
Defined.

Lemma X25_monitor_collector_is_never_written_witness :
  error_collector busy_monitor = ErrorCollector_init default_max_errors /\
  map_fold (fun _ n acc => (n + acc)%nat) 0%nat
    (error_counts (error_collector busy_monitor)) = 0%nat /\
  get_error_summary (error_collector busy_monitor) = mkErrorSummary 0 ∅ [].
Proof.
  apply (X25_monitor_collector_is_never_written busy_monitor busy_monitor_reachable).
Defined.

End MonitorRunScenarios.
